(** * pdf_reader.py: PDF to speech reader

    A shallow embedding of [src/pdf-to-speech/pdf_reader.py] and the
    properties of its voice selection, text extraction, confirmation prompt,
    output naming and top-level error handling.

    Python strings are modelled as [string]: sequences of code points below
    256 (the Latin-1 range), on which [str.lower] and [str.strip] are given
    their Unicode behaviour.  Calls that leave the program (printing, the
    file system, pypdf, pyttsx3) are nodes of a call tree, run against a
    [World] that answers them and may raise an exception at any of them. *)

From Stdlib Require Import String Ascii ZArith QArith Lia List Bool DecimalString.
From stdpp Require Import gmap strings.
Import ListNotations.
Open Scope string_scope.

(* stdpp never lets [simpl] unfold string append; proofs by induction on
   strings below need it to. *)
#[local] Arguments String.append !s1 s2 : simpl nomatch.

(** ** Python built-ins on [str] *)

Module Py.

(** A line feed, as in the literal ["\n"]. *)
Definition nl : string := String (ascii_of_nat 10) EmptyString.

(** [str.lower] on one code point: A-Z and the Latin-1 capitals
    U+00C0..U+00DE (U+00D7, the multiplication sign, apart) move up by 32. *)
Definition lower_char (c : ascii) : ascii :=
  let n := nat_of_ascii c in
  if (((65 <=? n) && (n <=? 90)) || ((192 <=? n) && (n <=? 214))
      || ((216 <=? n) && (n <=? 222)))%nat
  then ascii_of_nat (n + 32) else c.

(** [s.lower()] *)
Fixpoint lower (s : string) : string :=
  match s with
  | EmptyString => EmptyString
  | String c s' => String (lower_char c) (lower s')
  end.

(** [str.isspace] on one code point: TAB..CR, FS..US, SPACE, NEL, NBSP. *)
Definition is_space (c : ascii) : bool :=
  let n := nat_of_ascii c in
  (((9 <=? n) && (n <=? 13)) || ((28 <=? n) && (n <=? 32))
   || (n =? 133) || (n =? 160))%nat.

Definition is_empty (s : string) : bool :=
  match s with EmptyString => true | String _ _ => false end.

(** Truth value of a [str]: false exactly for the empty string. *)
Definition truthy (s : string) : bool := negb (is_empty s).

(** Truth value of a value that is [None] or a [str]. *)
Definition truthy_opt (o : option string) : bool :=
  match o with None => false | Some s => truthy s end.

Fixpoint lstrip (s : string) : string :=
  match s with
  | EmptyString => EmptyString
  | String c s' => if is_space c then lstrip s' else s
  end.

Fixpoint rstrip (s : string) : string :=
  match s with
  | EmptyString => EmptyString
  | String c s' =>
      let r := rstrip s' in
      if is_space c && is_empty r then EmptyString else String c r
  end.

(** [s.strip()] *)
Definition strip (s : string) : string := rstrip (lstrip s).

(** [needle in hay] *)
Fixpoint contains (needle hay : string) : bool :=
  String.prefix needle hay
  || match hay with
     | EmptyString => false
     | String _ hay' => contains needle hay'
     end.

(** [s[:n]] for [n >= 0] *)
Fixpoint take (n : nat) (s : string) : string :=
  match n, s with
  | S n', String c s' => String c (take n' s')
  | _, _ => EmptyString
  end.

(** [s[n:]] for [n >= 0] *)
Fixpoint drop (n : nat) (s : string) : string :=
  match n, s with
  | S n', String _ s' => drop n' s'
  | _, _ => s
  end.

(** [s * n] *)
Fixpoint repeat (s : string) (n : nat) : string :=
  match n with
  | O => EmptyString
  | S n' => s ++ repeat s n'
  end.

(** [str(n)] for a natural number *)
Definition str_of_nat (n : nat) : string :=
  NilZero.string_of_uint (Nat.to_uint n).

(** [sep.join(parts)] with the empty separator *)
Fixpoint join (parts : list string) : string :=
  match parts with
  | [] => EmptyString
  | p :: rest => p ++ join rest
  end.

(** [s.rfind(c)] for a one-character [c]: the highest index, or [-1]. *)
Fixpoint rfind (c : ascii) (s : string) : Z :=
  match s with
  | EmptyString => (-1)%Z
  | String a s' =>
      let r := rfind c s' in
      if (0 <=? r)%Z then (r + 1)%Z
      else if Ascii.eqb a c then 0%Z else (-1)%Z
  end.

End Py.

(** [repr] of a [str] and of a list of [str], as an f-string renders them. *)
Module PyRepr.

Definition hex_digit (n : nat) : ascii :=
  if (n <? 10)%nat then ascii_of_nat (48 + n) else ascii_of_nat (87 + n).

(** A code point that [repr] writes as it is. *)
Definition printable (c : ascii) : bool :=
  let n := nat_of_ascii c in
  (((32 <=? n) && (n <? 127)) || ((161 <=? n) && negb (n =? 173)))%nat.

Definition escape_char (quote c : ascii) : string :=
  let n := nat_of_ascii c in
  if Ascii.eqb c quote || Ascii.eqb c "\"%char then String "\"%char (String c EmptyString)
  else if (n =? 9)%nat then "\t"
  else if (n =? 10)%nat then "\n"
  else if (n =? 13)%nat then "\r"
  else if printable c then String c EmptyString
  else String "\"%char (String "x"%char
         (String (hex_digit (n / 16)) (String (hex_digit (n mod 16)) EmptyString))).

Fixpoint escape (quote : ascii) (s : string) : string :=
  match s with
  | EmptyString => EmptyString
  | String c s' => escape_char quote c ++ escape quote s'
  end.

Definition has_char (c : ascii) (s : string) : bool :=
  Py.contains (String c EmptyString) s.

(** [repr(s)]: single quotes, unless [s] holds one and no double quote. *)
Definition repr_str (s : string) : string :=
  let quote := if has_char "'"%char s && negb (has_char (ascii_of_nat 34) s)
               then ascii_of_nat 34 else "'"%char in
  String quote (escape quote s ++ String quote EmptyString).

Fixpoint join_comma (parts : list string) : string :=
  match parts with
  | [] => EmptyString
  | [p] => p
  | p :: rest => p ++ ", " ++ join_comma rest
  end.

(** [repr(l)] for a list of [str] *)
Definition repr_list (l : list string) : string :=
  "[" ++ join_comma (map repr_str l) ++ "]".

End PyRepr.

(** ** [os.path] (POSIX flavour) *)

Module OsPath.

(** [p[a:b]] for [0 <= a] *)
Definition slice (p : string) (a b : Z) : string :=
  Py.take (Z.to_nat (b - a)) (Py.drop (Z.to_nat a) p).

(** [os.path.basename]: [i = p.rfind('/') + 1; return p[i:]] *)
Definition basename (p : string) : string :=
  let i := (Py.rfind "/" p + 1)%Z in
  Py.drop (Z.to_nat i) p.

(** The loop of [genericpath._splitext] that skips leading dots: [n] is the
    number of iterations left, [dotIndex - filenameIndex]. *)
Fixpoint splitext_scan (n : nat) (p : string) (filenameIndex dotIndex : Z)
  : string * string :=
  match n with
  | O => (p, EmptyString)
  | S n' =>
      if negb (String.eqb (slice p filenameIndex (filenameIndex + 1)) ".")
      then (Py.take (Z.to_nat dotIndex) p, Py.drop (Z.to_nat dotIndex) p)
      else splitext_scan n' p (filenameIndex + 1) dotIndex
  end.

(** [os.path.splitext] *)
Definition splitext (p : string) : string * string :=
  let sepIndex := Py.rfind "/" p in
  let dotIndex := Py.rfind "." p in
  if (sepIndex <? dotIndex)%Z then
    let filenameIndex := (sepIndex + 1)%Z in
    splitext_scan (Z.to_nat (dotIndex - filenameIndex)) p filenameIndex dotIndex
  else (p, EmptyString).

End OsPath.

(** ** Data model *)

(** A voice of the host speech platform.  [languages] and [gender] are read
    with [getattr] and a default, so either may be absent. *)
Record Voice := {
  id : string;
  name : string;
  languages : option (list string);
  gender : option string
}.

(** [getattr(obj, attr, default)] on an attribute that may be absent. *)
Definition getattr {A} (field : option A) (default : A) : A :=
  match field with Some a => a | None => default end.

(** A page of an opened PDF: what its [extract_text()] gives. *)
Record Page := { page_text : option string }.

(** The handle [pyttsx3.init()] returns. *)
Inductive Engine := EngineHandle.

(** Values given to [engine.setProperty]. *)
Inductive pyval :=
| PStr (s : string)
| PInt (z : Z)
| PFloat (q : Q).

(** Exceptions: [KeyboardInterrupt] and [SystemExit] derive from
    [BaseException] only, every other one from [Exception]. *)
Inductive exn :=
| KeyboardInterrupt
| SystemExit
| Exception (msg : string).

(** ** Calls that leave the program *)

Inductive call :=
| Print (s : string)                      (* print(s) *)
| Input (prompt : string)                 (* input(prompt) *)
| PathExists (p : string)                 (* os.path.exists(p) *)
| PdfReader (p : string)                  (* PdfReader(p), then reader.pages *)
| ExtractText (pg : Page)                 (* page.extract_text() *)
| Pyttsx3Init                             (* pyttsx3.init() *)
| GetVoices (e : Engine)                  (* engine.getProperty('voices') *)
| SetProperty (e : Engine) (key : string) (v : pyval)
| Say (e : Engine) (text : string)        (* engine.say(text) *)
| SaveToFile (e : Engine) (text file : string)
| RunAndWait (e : Engine).                (* engine.runAndWait() *)

(** What each call returns. *)
Definition resp (c : call) : Type :=
  match c with
  | Print _ => unit
  | Input _ => string
  | PathExists _ => bool
  | PdfReader _ => list Page
  | ExtractText _ => option string
  | Pyttsx3Init => Engine
  | GetVoices _ => list Voice
  | SetProperty _ _ _ => unit
  | Say _ _ => unit
  | SaveToFile _ _ _ => unit
  | RunAndWait _ => unit
  end.

(** A program: a tree of calls, each continued on its answer. *)
Inductive prog (A : Type) : Type :=
| Ret (a : A)
| Vis (c : call) (k : resp c -> prog A).

Arguments Ret {A} a.
Arguments Vis {A} c k.

Fixpoint bind {A B} (p : prog A) (f : A -> prog B) : prog B :=
  match p with
  | Ret a => f a
  | Vis c k => Vis c (fun r => bind (k r) f)
  end.

Definition perform (c : call) : prog (resp c) := Vis c Ret.

Declare Scope prog_scope.
Delimit Scope prog_scope with prog.
Bind Scope prog_scope with prog.

Notation "x <- p ; q" := (bind p (fun x => q))
  (at level 20, p at level 100, q at level 200, only parsing) : prog_scope.
Notation "'do' p ; q" := (bind p (fun _ => q))
  (at level 20, p at level 100, q at level 200, only parsing) : prog_scope.

Definition print (s : string) : prog unit := perform (Print s).
Definition input (prompt : string) : prog string := perform (Input prompt).
Definition setProperty (e : Engine) (key : string) (v : pyval) : prog unit :=
  perform (SetProperty e key v).

Definition pyttsx3_init : prog Engine := perform Pyttsx3Init.
Definition getProperty_voices (e : Engine) : prog (list Voice) :=
  perform (GetVoices e).
Definition say (e : Engine) (text : string) : prog unit := perform (Say e text).
Definition runAndWait (e : Engine) : prog unit := perform (RunAndWait e).
Definition save_to_file (e : Engine) (text file : string) : prog unit :=
  perform (SaveToFile e text file).
Definition path_exists (p : string) : prog bool := perform (PathExists p).
Definition extract_text (pg : Page) : prog (option string) :=
  perform (ExtractText pg).

(** ** The program *)

(** [str(lang)] of a language tag that is a [str]. *)
Definition py_str (lang : string) : string := lang.

Definition female_names : list string := ["zira"; "susan"; "serena"; "hazel"].

(** The [for voice in voices] loop of [initialize_engine], with its [break]:
    the value of [english_female_voice] when the loop ends. *)
Fixpoint search_voices (voices : list Voice) : option string :=
  match voices with
  | [] => None
  | voice :: rest =>
      let languages := getattr (languages voice) [] in
      let lang_is_english :=
        existsb (fun lang => Py.contains "en" (Py.lower (py_str lang))) languages in
      let gender := Py.lower (getattr (gender voice) EmptyString) in
      let name := Py.lower (name voice) in
      let is_female_by_name :=
        existsb (fun fem_name => Py.contains fem_name name) female_names in
      if lang_is_english && (String.eqb gender "female" || is_female_by_name)
      then Some (id voice)
      else search_voices rest
  end.

Definition initialize_engine : prog Engine :=
  (engine <- pyttsx3_init;
   voices <- getProperty_voices engine;
   let english_female_voice := search_voices voices in
   do (if Py.truthy_opt english_female_voice then
         do print "Found an English female voice.";
         setProperty engine "voice" (PStr (getattr english_female_voice EmptyString))
       else
         print "Could not find a dedicated English female voice. Using system default.");
   do setProperty engine "rate" (PInt 150);
   do setProperty engine "volume" (PFloat 0.9);
   Ret engine)%prog.

(** The generator [page.extract_text() for page in reader.pages if
    page.extract_text()], consumed by [join]: a page is asked for its text,
    and asked again when the first answer is true. *)
Fixpoint join_pages (pages : list Page) : prog string :=
  match pages with
  | [] => Ret EmptyString
  | page :: rest =>
      (cond <- extract_text page;
       if Py.truthy_opt cond then
         text <- extract_text page;
         tail <- join_pages rest;
         Ret (getattr text EmptyString ++ tail)
       else join_pages rest)%prog
  end.

Definition extract_text_from_pdf (file_path : string) : prog (option string) :=
  (do print ("Reading PDF: " ++ file_path);
   pages <- perform (PdfReader file_path);
   do print ("PDF has " ++ Py.str_of_nat (length pages) ++ " pages.");
   full_text <- join_pages pages;
   if negb (Py.truthy (Py.strip full_text)) then
     do print "No text could be extracted from the PDF.";
     Ret None
   else
     do print (Py.nl ++ "Preview of text:");
     do print (Py.strip (Py.take 200 full_text) ++ "...");
     Ret (Some full_text))%prog.

Definition speak_text (engine : Engine) (text : string) : prog unit :=
  (line <- input (Py.nl ++ "Start speaking? (y/n): ");
   let response := Py.lower line in
   if String.eqb response "y" then
     do print "Starting speech... (Press Ctrl+C to stop)";
     do say engine text;
     do runAndWait engine;
     print "Finished speaking!"
   else
     print "Speech cancelled.")%prog.

Definition save_text_to_audio (engine : Engine) (text output_file : string)
  : prog unit :=
  (do print ("Converting PDF to audio file: " ++ output_file);
   do save_to_file engine text output_file;
   do runAndWait engine;
   print ("Audio saved successfully to: " ++ output_file))%prog.

(** The loop of [list_voices] over [enumerate(voices)], from index [i]. *)
Fixpoint list_voices_loop (i : nat) (voices : list Voice) : prog unit :=
  match voices with
  | [] => Ret tt
  | voice :: rest =>
      let languages := getattr (languages voice) ["N/A"] in
      let gender := getattr (gender voice) "N/A" in
      (do print ("  " ++ Py.str_of_nat i ++ ": " ++ name voice);
       do print ("     - Gender: " ++ gender ++ ", Languages: "
                 ++ PyRepr.repr_list languages);
       list_voices_loop (S i) rest)%prog
  end.

Definition list_voices : prog unit :=
  (engine <- pyttsx3_init;
   voices <- getProperty_voices engine;
   do print "Available Text-to-Speech Voices:";
   do print (Py.repeat "-" 50);
   list_voices_loop 0 voices)%prog.

Definition usage : prog unit :=
  (do print "PDF to Speech Reader";
   do print (Py.repeat "=" 30);
   do print "Usage:";
   do print "  python pdf_reader.py <pdf_file>         - Read PDF aloud";
   do print "  python pdf_reader.py <pdf_file> save    - Save to audio file";
   print "  python pdf_reader.py voices             - List available voices")%prog.

(** [sys.argv[i]], read only where [len(sys.argv) > i] has been tested. *)
Definition argv_at (argv : list string) (i : nat) : string :=
  nth i argv EmptyString.

(** [x in (a, b, ...)] on strings *)
Definition in_tuple (x : string) (t : list string) : bool :=
  existsb (String.eqb x) t.

(** [len(sys.argv) > 2 and sys.argv[2].lower() == "save"] *)
Definition save_mode (argv : list string) : bool :=
  (2 <? length argv)%nat && String.eqb (Py.lower (argv_at argv 2)) "save".

(** [os.path.splitext(os.path.basename(file_path))[0] + ".wav"] *)
Definition output_name (file_path : string) : string :=
  fst (OsPath.splitext (OsPath.basename file_path)) ++ ".wav".

(** The body of the [try] block of [main]. *)
Definition main_try (argv : list string) (file_path : string) : prog unit :=
  (text <- extract_text_from_pdf file_path;
   if negb (Py.truthy_opt text) then Ret tt
   else
     let text := getattr text EmptyString in
     engine <- initialize_engine;
     if save_mode argv then
       save_text_to_audio engine text (output_name file_path)
     else
       speak_text engine text)%prog.

(** ** Running a program *)

(** The surroundings of one run: the command line, the file system, what pypdf
    finds in a file, the platform's voices, the line typed at the prompt, and
    the exceptions raised inside calls: [faults !! n] is raised by the call
    number [n] of the run (counting from 0), if any. *)
Record World := {
  sys_argv : list string;
  fs_exists : string -> bool;
  pdf_pages : string -> list Page;
  voices : list Voice;
  stdin_line : string;
  faults : gmap nat exn
}.

(** The calls made so far, oldest first, and the engine's properties. *)
Record State := {
  log : list call;
  props : gmap string pyval
}.

Inductive outcome (A : Type) : Type :=
| Done (a : A)
| Raise (e : exn).

Arguments Done {A} a.
Arguments Raise {A} e.

Definition answer (w : World) (c : call) : resp c :=
  match c return resp c with
  | Print _ => tt
  | Input _ => stdin_line w
  | PathExists p => fs_exists w p
  | PdfReader p => pdf_pages w p
  | ExtractText pg => page_text pg
  | Pyttsx3Init => EngineHandle
  | GetVoices _ => voices w
  | SetProperty _ _ _ => tt
  | Say _ _ => tt
  | SaveToFile _ _ _ => tt
  | RunAndWait _ => tt
  end.

(** A call is logged when it is made. *)
Definition record (c : call) (s : State) : State :=
  {| log := log s ++ [c]; props := props s |}.

(** What a call that returns leaves in the state. *)
Definition effect (c : call) (s : State) : State :=
  match c with
  | SetProperty _ key v => {| log := log s; props := <[key := v]> (props s) |}
  | _ => s
  end.

Fixpoint run {A} (w : World) (p : prog A) (s : State) : outcome A * State :=
  match p with
  | Ret a => (Done a, s)
  | Vis c k =>
      let s1 := record c s in
      match faults w !! length (log s) with
      | Some e => (Raise e, s1)
      | None => run w (k (answer w c)) (effect c s1)
      end
  end.

(** A computation on the state that returns or raises. *)
Definition exec (A : Type) : Type := State -> outcome A * State.

Definition exec_bind {A B} (m : exec A) (f : A -> exec B) : exec B :=
  fun s =>
    match m s with
    | (Done a, s') => f a s'
    | (Raise e, s') => (Raise e, s')
    end.

(** [try: body / except ...]: [handler e] is the clause that catches [e], if
    one does. *)
Definition try_except {A} (body : exec A) (handler : exn -> option (exec A))
  : exec A :=
  fun s =>
    match body s with
    | (Done a, s') => (Done a, s')
    | (Raise e, s') =>
        match handler e with
        | Some h => h s'
        | None => (Raise e, s')
        end
    end.

(** The [except] clauses of [main]: [KeyboardInterrupt], then [Exception]. *)
Definition main_except (w : World) (e : exn) : option (exec unit) :=
  match e with
  | KeyboardInterrupt =>
      Some (run w (print (Py.nl ++ "Operation interrupted by user.")))
  | Exception msg =>
      Some (run w (print ("An unexpected error occurred: " ++ msg)))
  | SystemExit => None
  end.

Definition main (w : World) : exec unit :=
  let argv := sys_argv w in
  if (length argv <? 2)%nat || in_tuple (argv_at argv 1) ["-h"; "--help"] then
    run w usage
  else
    let command := argv_at argv 1 in
    if String.eqb command "voices" then run w list_voices
    else
      let file_path := command in
      exec_bind (run w (path_exists file_path)) (fun found =>
        if negb found then
          run w (print ("Error: File '" ++ file_path ++ "' does not exist!"))
        else
          try_except (run w (main_try argv file_path)) (main_except w)).

(** The state a run starts from. *)
Definition start (p : gmap string pyval) : State := {| log := []; props := p |}.

(** The calls a program makes when none of them raises, and what it returns
    then. *)
Fixpoint calls {A} (w : World) (p : prog A) : list call :=
  match p with
  | Ret _ => []
  | Vis c k => c :: calls w (k (answer w c))
  end.

Fixpoint result {A} (w : World) (p : prog A) : A :=
  match p with
  | Ret a => a
  | Vis c k => result w (k (answer w c))
  end.

(** The engine's properties after a list of calls that returned. *)
Definition effects (l : list call) (s : State) : State :=
  fold_left (fun s c => effect c (record c s)) l s.

(** The same surroundings with no exception raised in any call. *)
Definition no_faults (w : World) : World :=
  {| sys_argv := sys_argv w; fs_exists := fs_exists w; pdf_pages := pdf_pages w;
     voices := voices w; stdin_line := stdin_line w; faults := ∅ |}.

(** The same surroundings with exactly the call number [n] raising [e]. *)
Definition one_fault (w : World) (n : nat) (e : exn) : World :=
  {| sys_argv := sys_argv w; fs_exists := fs_exists w; pdf_pages := pdf_pages w;
     voices := voices w; stdin_line := stdin_line w; faults := {[ n := e ]} |}.

(** Calls on the speech engine. *)
Definition engine_call (c : call) : bool :=
  match c with
  | Pyttsx3Init | GetVoices _ | SetProperty _ _ _ | Say _ _
  | SaveToFile _ _ _ | RunAndWait _ => true
  | _ => false
  end.

(** Calls that read the PDF. *)
Definition extraction_call (c : call) : bool :=
  match c with
  | PdfReader _ | ExtractText _ => true
  | _ => false
  end.

(** ** The specification's vocabulary *)

(** Equal, ignoring case. *)
Definition equals_ci (a b : string) : Prop := Py.lower a = Py.lower b.

(** [s] contains [needle] as a substring, ignoring case. *)
Definition contains_ci (needle s : string) : Prop :=
  exists pre mid post, s = pre ++ mid ++ post /\ equals_ci mid needle.

(** Some reported language tag contains "en"; no language information, no
    match. *)
Definition language_match (v : Voice) : Prop :=
  exists tags tag, languages v = Some tags /\ In tag tags /\ contains_ci "en" tag.

(** The reported gender is "female", or the display name contains one of the
    known female voice names. *)
Definition gender_match (v : Voice) : Prop :=
  (exists g, gender v = Some g /\ equals_ci g "female")
  \/ (exists fem, In fem female_names /\ contains_ci fem (name v)).

Definition english_female (v : Voice) : Prop :=
  language_match v /\ gender_match v.

(** [v] is the first voice of [voices], in their order, that is an English
    female voice. *)
Definition first_english_female (voices : list Voice) (v : Voice) : Prop :=
  exists before after : list Voice,
    voices = (before ++ v :: after)%list
    /\ english_female v
    /\ Forall (fun u => ~ english_female u) before.

(** Every character of [s] is white space (so also when [s] is empty). *)
Fixpoint all_space (s : string) : bool :=
  match s with
  | EmptyString => true
  | String c s' => Py.is_space c && all_space s'
  end.

(** The texts of the pages in page order, with nothing between them; a page
    without text gives nothing. *)
Definition page_concat (pages : list Page) : string :=
  Py.join (map (fun pg => getattr (page_text pg) EmptyString) pages).

(** [c] does not occur in [s]. *)
Fixpoint free_of (c : ascii) (s : string) : bool :=
  match s with
  | EmptyString => true
  | String a s' => negb (Ascii.eqb a c) && free_of c s'
  end.

(** [s] consists of dots only. *)
Fixpoint all_dots (s : string) : bool :=
  match s with
  | EmptyString => true
  | String a s' => Ascii.eqb a "."%char && all_dots s'
  end.

(** [ext] is the extension of the file name [root ++ ext]: either a last dot
    that follows some character other than a dot, with what comes after it, or
    nothing when the name has no such dot. *)
Definition extension_of (root ext : string) : Prop :=
  (ext = EmptyString
   /\ exists dots rest,
        root = dots ++ rest /\ all_dots dots = true /\ free_of "." rest = true)
  \/ (exists e,
        ext = String "."%char e /\ free_of "." e = true /\ all_dots root = false).

(** [base] is the last component of [path]: what follows its last slash. *)
Definition base_of (path base : string) : Prop :=
  free_of "/" base = true
  /\ exists dir, path = dir ++ base
       /\ (dir = EmptyString \/ exists d, dir = d ++ "/").

(** ** Calls expected of each part of the program *)

(** The test of the voice loop on one voice. *)
Definition voice_test (voice : Voice) : bool :=
  existsb (fun lang => Py.contains "en" (Py.lower (py_str lang)))
          (getattr (languages voice) [])
  && (String.eqb (Py.lower (getattr (gender voice) EmptyString)) "female"
      || existsb (fun fem_name => Py.contains fem_name (Py.lower (name voice)))
                 female_names).

(** Reading the text of the pages: a page with text is asked twice. *)
Definition page_calls (pages : list Page) : list call :=
  flat_map (fun pg => if Py.truthy_opt (page_text pg)
                      then [ExtractText pg; ExtractText pg]
                      else [ExtractText pg]) pages.

(** The file argument of an invocation [prog path ...]: the second word of the
    command line, when it is none of the words [main] takes for a command. *)
Definition file_argument (w : World) (path : string) : Prop :=
  (exists prog rest, sys_argv w = prog :: path :: rest)
  /\ in_tuple path ["-h"; "--help"] = false
  /\ String.eqb path "voices" = false.

Definition interrupted_message : call :=
  Print (Py.nl ++ "Operation interrupted by user.").

Definition missing_file_message (path : string) : call :=
  Print ("Error: File '" ++ path ++ "' does not exist!").

(** The calls of live playback. *)
Definition playback_call (c : call) : bool :=
  match c with
  | Say _ _ | RunAndWait _ => true
  | _ => false
  end.

(** The calls of [speak_text] after the prompt, when it proceeds. *)
Definition playback_calls (e : Engine) (text : string) : list call :=
  [Print "Starting speech... (Press Ctrl+C to stop)";
   Say e text; RunAndWait e; Print "Finished speaking!"].

Definition prompt : call := Input (Py.nl ++ "Start speaking? (y/n): ").

(** The calls of [save_text_to_audio]. *)
Definition save_calls (e : Engine) (text file : string) : list call :=
  [Print ("Converting PDF to audio file: " ++ file);
   SaveToFile e text file; RunAndWait e;
   Print ("Audio saved successfully to: " ++ file)].

(** ** Sample surroundings *)

Module Sample.

Definition david : Voice :=
  {| id := "tts.david"; name := "Microsoft David Desktop";
     languages := Some ["en-US"]; gender := Some "Male" |}.

Definition zira : Voice :=
  {| id := "tts.zira"; name := "Microsoft Zira Desktop";
     languages := Some ["EN-us"]; gender := None |}.

Definition anna : Voice :=
  {| id := "tts.anna"; name := "Anna";
     languages := Some ["de-DE"]; gender := Some "Female" |}.

(** An English female voice that the platform reports with an empty id. *)
Definition unnamed : Voice :=
  {| id := EmptyString; name := "Hazel";
     languages := Some ["en-GB"]; gender := Some "female" |}.

Definition report : list Page :=
  [ {| page_text := Some "Hello " |}; {| page_text := None |};
    {| page_text := Some "world" |} ].

(** A scanned page: its text is one space. *)
Definition scan : list Page := [ {| page_text := Some " " |} ].

Definition world (argv : list string) (present : bool) (pages : list Page)
                 (vs : list Voice) (line : string) : World :=
  {| sys_argv := argv; fs_exists := fun _ => present;
     pdf_pages := fun _ => pages; voices := vs; stdin_line := line;
     faults := ∅ |}.

(** [pdf_reader.py docs/report.pdf], answered [y] at the prompt. *)
Definition speak : World :=
  world ["pdf_reader.py"; "docs/report.pdf"] true report [david; zira] "y".

(** [pdf_reader.py docs/report.pdf SAVE] *)
Definition save : World :=
  world ["pdf_reader.py"; "docs/report.pdf"; "SAVE"] true report [david; zira]
        EmptyString.

(** [pdf_reader.py scan.pdf] on a PDF without text. *)
Definition blank : World :=
  world ["pdf_reader.py"; "scan.pdf"] true scan [david; zira] "y".

(** [pdf_reader.py /no/such.pdf] *)
Definition missing : World :=
  world ["pdf_reader.py"; "/no/such.pdf"] false [] [david; zira] "y".

End Sample.


(** ** Vocabulary for the rest of the program *)

(** The pages that have text: those whose [extract_text()] is true. *)
Definition text_pages (pages : list Page) : list Page :=
  List.filter (fun pg => Py.truthy_opt (page_text pg)) pages.

(** The two lines [list_voices] prints for the voice number [i]. *)
Definition voice_lines (i : nat) (v : Voice) : list call :=
  [Print ("  " ++ Py.str_of_nat i ++ ": " ++ name v);
   Print ("     - Gender: " ++ getattr (gender v) "N/A" ++ ", Languages: "
          ++ PyRepr.repr_list (getattr (languages v) ["N/A"]))].

(** What [list_voices] does before its loop. *)
Definition voices_header : list call :=
  [Pyttsx3Init; GetVoices EngineHandle;
   Print "Available Text-to-Speech Voices:";
   Print "--------------------------------------------------"].

(** The lines of the usage text. *)
Definition usage_lines : list call :=
  [Print "PDF to Speech Reader";
   Print "==============================";
   Print "Usage:";
   Print "  python pdf_reader.py <pdf_file>         - Read PDF aloud";
   Print "  python pdf_reader.py <pdf_file> save    - Save to audio file";
   Print "  python pdf_reader.py voices             - List available voices"].

(** No argument, or [-h] or [--help] as the first one. *)
Definition help_invocation (w : World) : Prop :=
  (length (sys_argv w) < 2)%nat
  \/ argv_at (sys_argv w) 1 = "-h" \/ argv_at (sys_argv w) 1 = "--help".

(** [voices] as the first argument. *)
Definition voices_invocation (w : World) : Prop :=
  exists prog rest, sys_argv w = prog :: "voices" :: rest.

Definition is_print (c : call) : bool :=
  match c with Print _ => true | _ => false end.

Definition is_extract_text (c : call) : bool :=
  match c with ExtractText _ => true | _ => false end.

(** [s.strip()] changes nothing: no white space at either end of [s]. *)
Definition trimmed (s : string) : Prop := Py.strip s = s.

Definition unexpected_error_message (msg : string) : call :=
  Print ("An unexpected error occurred: " ++ msg).

(** Calls of live speech: the prompt and [engine.say]. *)
Definition asks_or_speaks (c : call) : bool :=
  match c with Input _ | Say _ _ => true | _ => false end.

Definition writes_file (c : call) : bool :=
  match c with SaveToFile _ _ _ => true | _ => false end.

Definition sets_voice (c : call) : bool :=
  match c with
  | SetProperty _ key _ => String.eqb key "voice"
  | _ => false
  end.
(** ** Facts about the string built-ins *)

Section StringFacts.

Implicit Types s t u : string.

Lemma str_app_nil_r s : s ++ EmptyString = s.
Proof. induction s as [|c s IH]; simpl; [reflexivity | now rewrite IH]. Qed.

Lemma str_app_assoc s t u : (s ++ t) ++ u = s ++ (t ++ u).
Proof. induction s as [|c s IH]; simpl; [reflexivity | now rewrite IH]. Qed.

Lemma str_app_empty s t : s ++ t = EmptyString -> s = EmptyString /\ t = EmptyString.
Proof. destruct s; simpl; [tauto | discriminate]. Qed.

Lemma is_empty_true s : Py.is_empty s = true <-> s = EmptyString.
Proof. destruct s; simpl; split; congruence. Qed.

Lemma lower_app s t : Py.lower (s ++ t) = Py.lower s ++ Py.lower t.
Proof. induction s as [|c s IH]; simpl; [reflexivity | now rewrite IH]. Qed.

Lemma lower_length s : String.length (Py.lower s) = String.length s.
Proof. induction s as [|c s IH]; simpl; [reflexivity | now rewrite IH]. Qed.

(** Lowering is idempotent, character by character. *)
Lemma lower_char_idem c : Py.lower_char (Py.lower_char c) = Py.lower_char c.
Proof. destruct c as [[] [] [] [] [] [] [] []]; reflexivity. Qed.

Lemma lower_idem s : Py.lower (Py.lower s) = Py.lower s.
Proof.
  induction s as [|c s IH]; simpl; [reflexivity|].
  now rewrite lower_char_idem, IH.
Qed.

(** A split of the lowered string comes from a split of the string. *)
Lemma lower_split s a b :
  Py.lower s = a ++ b ->
  exists a' b', s = a' ++ b' /\ Py.lower a' = a /\ Py.lower b' = b.
Proof.
  revert a. induction s as [|c s IH]; intros a H.
  - simpl in H. symmetry in H. apply str_app_empty in H as [-> ->].
    exists EmptyString, EmptyString. auto.
  - destruct a as [|x a].
    + exists EmptyString, (String c s). simpl in *. auto.
    + simpl in H. injection H as Hc Hs.
      destruct (IH _ Hs) as (a' & b' & -> & <- & <-).
      exists (String c a'), b'. simpl. rewrite Hc. auto.
Qed.

Lemma prefix_iff n h :
  String.prefix n h = true <-> exists post, h = n ++ post.
Proof.
  revert h. induction n as [|c n IH]; intros h.
  - split; [intros _; exists h; reflexivity | intros _; destruct h; reflexivity].
  - destruct h as [|d h]; simpl.
    + split; [discriminate | intros [post H]; discriminate].
    + destruct (ascii_dec c d) as [->|Hne].
      * rewrite IH. split; intros [post H]; exists post; congruence.
      * split; [discriminate | intros [post H]; congruence].
Qed.

(** [needle in hay] says that [hay] is some text, [needle], some text. *)
Lemma contains_iff n h :
  Py.contains n h = true <-> exists pre post, h = pre ++ n ++ post.
Proof.
  induction h as [|d h IH].
  - change (Py.contains n EmptyString) with (String.prefix n EmptyString || false).
    rewrite orb_false_r, prefix_iff. split.
    + intros [post H]. exists EmptyString, post. exact H.
    + intros (pre & post & H). symmetry in H.
      apply str_app_empty in H as [-> H]. exists post. now rewrite H.
  - change (Py.contains n (String d h))
      with (String.prefix n (String d h) || Py.contains n h).
    rewrite orb_true_iff, prefix_iff, IH. split.
    + intros [[post H] | (pre & post & H)].
      * exists EmptyString, post. exact H.
      * exists (String d pre), post. simpl. now rewrite H.
    + intros (pre & post & H). destruct pre as [|x pre].
      * left. exists post. exact H.
      * right. simpl in H. injection H as _ H. eauto.
Qed.

(** [needle in s.lower()], for a [needle] in lower case, is containment
    ignoring case. *)
Lemma contains_lower_iff n s :
  Py.lower n = n ->
  Py.contains n (Py.lower s) = true <-> contains_ci n s.
Proof.
  intros Hn. rewrite contains_iff. unfold contains_ci, equals_ci. split.
  - intros (pre & post & H).
    apply lower_split in H as (pre' & r & -> & _ & H).
    apply lower_split in H as (mid & post' & -> & H & _).
    exists pre', mid, post'. split; [reflexivity | congruence].
  - intros (pre & mid & post & -> & H).
    exists (Py.lower pre), (Py.lower post).
    rewrite !lower_app. congruence.
Qed.

(** [g.lower() == w], for a [w] in lower case, is equality ignoring case. *)
Lemma eqb_lower_iff w g :
  Py.lower w = w ->
  String.eqb (Py.lower g) w = true <-> equals_ci g w.
Proof. intros Hw. unfold equals_ci. rewrite String.eqb_eq. split; congruence. Qed.

Lemma lower_char_y c :
  Py.lower_char c = "y"%char <-> c = "y"%char \/ c = "Y"%char.
Proof.
  split.
  - destruct c as [[] [] [] [] [] [] [] []]; vm_compute; intros H;
      solve [discriminate H | auto].
  - intros [-> | ->]; reflexivity.
Qed.

(** The lines that lower to ["y"] are ["y"] and ["Y"]. *)
Lemma lower_is_y s : Py.lower s = "y" <-> s = "y" \/ s = "Y".
Proof.
  split.
  - destruct s as [|c [|d s]]; simpl; try discriminate.
    intros H. injection H as H. apply lower_char_y in H as [-> | ->]; auto.
  - intros [-> | ->]; reflexivity.
Qed.

Lemma lstrip_all_space s : all_space s = true -> Py.lstrip s = EmptyString.
Proof.
  induction s as [|c s IH]; simpl; [reflexivity|].
  destruct (Py.is_space c); simpl; [exact IH | discriminate].
Qed.

Lemma lstrip_not_all_space s :
  all_space s = false ->
  exists c r, Py.lstrip s = String c r /\ Py.is_space c = false.
Proof.
  induction s as [|c s IH]; simpl; [discriminate|].
  destruct (Py.is_space c) eqn:E; simpl; [exact IH | eauto].
Qed.

Lemma rstrip_empty s : Py.rstrip s = EmptyString <-> all_space s = true.
Proof.
  induction s as [|c s IH]; simpl; [tauto|].
  destruct (Py.is_space c); simpl.
  - rewrite <- IH. destruct (Py.rstrip s); simpl; split; congruence.
  - split; discriminate.
Qed.

(** [s.strip()] is empty exactly when [s] is empty or white space only. *)
Lemma strip_empty s : Py.strip s = EmptyString <-> all_space s = true.
Proof.
  unfold Py.strip. destruct (all_space s) eqn:E.
  - rewrite (lstrip_all_space _ E). simpl. tauto.
  - destruct (lstrip_not_all_space _ E) as (c & r & -> & Hc).
    simpl. rewrite Hc. simpl. split; discriminate.
Qed.

Lemma truthy_strip s : Py.truthy (Py.strip s) = negb (all_space s).
Proof.
  unfold Py.truthy. destruct (all_space s) eqn:E.
  - apply strip_empty in E. now rewrite E.
  - destruct (Py.strip s) eqn:S; [|reflexivity].
    apply strip_empty in S. congruence.
Qed.

Lemma all_space_nonempty s : all_space s = false -> s <> EmptyString.
Proof. intros H ->. discriminate. Qed.

End StringFacts.

(** ** The model on concrete inputs *)

Example basename_report : OsPath.basename "/home/u/docs/report.pdf" = "report.pdf".
Proof. reflexivity. Qed.

Example splitext_report : OsPath.splitext "report.pdf" = ("report", ".pdf").
Proof. reflexivity. Qed.

Example splitext_hidden : OsPath.splitext ".bashrc" = (".bashrc", EmptyString).
Proof. reflexivity. Qed.

Example splitext_two_dots : OsPath.splitext "a.tar.gz" = ("a.tar", ".gz").
Proof. reflexivity. Qed.

Example output_name_no_extension : output_name "notes/README" = "README.wav".
Proof. reflexivity. Qed.

Example repr_list_default : PyRepr.repr_list ["N/A"] = "['N/A']".
Proof. reflexivity. Qed.

Example lower_mixed : Py.lower "Microsoft ZIRA Desktop" = "microsoft zira desktop".
Proof. reflexivity. Qed.

Example strip_both_ends : Py.strip "  a b  " = "a b".
Proof. reflexivity. Qed.

Example search_sample :
  search_voices [Sample.anna; Sample.david; Sample.zira] = Some "tts.zira".
Proof. reflexivity. Qed.

Example main_save_log :
  log (snd (main Sample.save (start ∅))) =
  [PathExists "docs/report.pdf";
   Print "Reading PDF: docs/report.pdf";
   PdfReader "docs/report.pdf";
   Print "PDF has 3 pages.";
   ExtractText {| page_text := Some "Hello " |};
   ExtractText {| page_text := Some "Hello " |};
   ExtractText {| page_text := None |};
   ExtractText {| page_text := Some "world" |};
   ExtractText {| page_text := Some "world" |};
   Print (Py.nl ++ "Preview of text:");
   Print "Hello world...";
   Pyttsx3Init;
   GetVoices EngineHandle;
   Print "Found an English female voice.";
   SetProperty EngineHandle "voice" (PStr "tts.zira");
   SetProperty EngineHandle "rate" (PInt 150);
   SetProperty EngineHandle "volume" (PFloat 0.9);
   Print "Converting PDF to audio file: report.wav";
   SaveToFile EngineHandle "Hello world" "report.wav";
   RunAndWait EngineHandle;
   Print "Audio saved successfully to: report.wav"].
Proof. vm_compute. reflexivity. Qed.

Example main_usage_log :
  log (snd (main (Sample.world ["pdf_reader.py"; "--help"] true [] [] EmptyString)
                 (start ∅))) = calls Sample.speak usage.
Proof. vm_compute. reflexivity. Qed.

(** ** Facts about running programs *)

Section RunFacts.

Lemma answer_faults_irrelevant w w' c :
  sys_argv w = sys_argv w' -> fs_exists w = fs_exists w' ->
  pdf_pages w = pdf_pages w' -> voices w = voices w' ->
  stdin_line w = stdin_line w' ->
  answer w c = answer w' c.
Proof. intros ? ? ? ? ?. destruct c; simpl; congruence. Qed.

Lemma calls_no_faults {A} w (p : prog A) : calls (no_faults w) p = calls w p.
Proof.
  induction p as [a | c k IH]; simpl; [reflexivity|].
  rewrite (answer_faults_irrelevant (no_faults w) w) by reflexivity.
  now rewrite IH.
Qed.

Lemma calls_one_fault {A} w n e (p : prog A) :
  calls (one_fault w n e) p = calls w p.
Proof.
  induction p as [a | c k IH]; simpl; [reflexivity|].
  rewrite (answer_faults_irrelevant (one_fault w n e) w) by reflexivity.
  now rewrite IH.
Qed.

Lemma result_no_faults {A} w (p : prog A) : result (no_faults w) p = result w p.
Proof.
  induction p as [a | c k IH]; simpl; [reflexivity|].
  rewrite (answer_faults_irrelevant (no_faults w) w) by reflexivity.
  now rewrite IH.
Qed.

Lemma calls_bind {A B} w (p : prog A) (f : A -> prog B) :
  calls w (bind p f) = (calls w p ++ calls w (f (result w p)))%list.
Proof. induction p as [a | c k IH]; simpl; [reflexivity | now rewrite IH]. Qed.

Lemma result_bind {A B} w (p : prog A) (f : A -> prog B) :
  result w (bind p f) = result w (f (result w p)).
Proof. induction p as [a | c k IH]; simpl; [reflexivity | now rewrite IH]. Qed.

Lemma run_bind {A B} w (p : prog A) (f : A -> prog B) s :
  run w (bind p f) s =
  match run w p s with
  | (Done a, s') => run w (f a) s'
  | (Raise e, s') => (Raise e, s')
  end.
Proof.
  revert s. induction p as [a | c k IH]; intros s; simpl; [reflexivity|].
  destruct (faults w !! length (log s)); [reflexivity | apply IH].
Qed.

Lemma log_effect c s : log (effect c s) = log s.
Proof. destruct c; reflexivity. Qed.

Lemma log_effects l s : log (effects l s) = (log s ++ l)%list.
Proof.
  revert s. induction l as [|c l IH]; intros s; simpl.
  - now rewrite app_nil_r.
  - unfold effects in IH. rewrite IH, log_effect. simpl.
    now rewrite <- app_assoc.
Qed.

Lemma effects_app l1 l2 s : effects (l1 ++ l2) s = effects l2 (effects l1 s).
Proof. unfold effects. apply fold_left_app. Qed.

(** Without exceptions a run makes the calls of [calls] and returns
    [result]. *)
Lemma run_no_faults {A} w (p : prog A) s :
  faults w = ∅ ->
  run w p s = (Done (result w p), effects (calls w p) s).
Proof.
  intros Hf. revert s. induction p as [a | c k IH]; intros s; simpl.
  - reflexivity.
  - rewrite Hf, lookup_empty. apply IH.
Qed.

(** Whatever is raised, the calls made are the first ones of [calls]. *)
Lemma run_log_prefix {A} w (p : prog A) s :
  exists m, log (snd (run w p s)) = (log s ++ take m (calls w p))%list.
Proof.
  revert s. induction p as [a | c k IH]; intros s; simpl.
  - exists 0. now rewrite app_nil_r.
  - destruct (faults w !! length (log s)).
    + exists 1. simpl. rewrite take_0. reflexivity.
    + destruct (IH (answer w c) (effect c (record c s))) as [m Hm].
      exists (S m). rewrite Hm, log_effect. simpl.
      now rewrite <- app_assoc.
Qed.

(** A run that returns was not disturbed. *)
Lemma run_done {A} w (p : prog A) s a s' :
  run w p s = (Done a, s') ->
  a = result w p /\ s' = effects (calls w p) s.
Proof.
  revert s. induction p as [b | c k IH]; intros s; simpl.
  - intros H. injection H as -> ->. auto.
  - destruct (faults w !! length (log s)); [discriminate|]. apply IH.
Qed.

(** With one exception scheduled, at a call the program reaches, the run
    stops in that call: the calls before it returned, and it is the last
    one logged. *)
Lemma run_one_fault {A} w (p : prog A) s n e k c :
  faults w = {[ n := e ]} ->
  n = length (log s) + k ->
  calls w p !! k = Some c ->
  run w p s = (Raise e, record c (effects (take k (calls w p)) s)).
Proof.
  intros Hf. revert s k. induction p as [a | c0 kont IH]; intros s k Hn Hc.
  - simpl in Hc. discriminate.
  - simpl. rewrite Hf. destruct k as [|k].
    + simpl in Hc. injection Hc as ->.
      replace (length (log s)) with n by lia.
      rewrite lookup_singleton_eq. reflexivity.
    + rewrite lookup_singleton_ne by lia.
      simpl in Hc. simpl.
      apply IH; [|exact Hc].
      rewrite log_effect. simpl. rewrite length_app. simpl. lia.
Qed.

(** With one exception scheduled past the end of the run, or before its
    start, nothing is disturbed. *)
Lemma run_one_fault_missed {A} w (p : prog A) s n e :
  faults w = {[ n := e ]} ->
  n < length (log s) \/ length (log s) + length (calls w p) <= n ->
  run w p s = (Done (result w p), effects (calls w p) s).
Proof.
  intros Hf. revert s. induction p as [a | c kont IH]; intros s Hn.
  - reflexivity.
  - simpl. rewrite Hf. rewrite lookup_singleton_ne.
    + apply IH. rewrite log_effect. simpl. rewrite length_app. simpl.
      simpl in Hn. lia.
    + simpl in Hn. lia.
Qed.

Lemma log_record_effects c l s k :
  log (record c (effects (take k l) s)) = (log s ++ take k l ++ [c])%list.
Proof. simpl. rewrite log_effects. now rewrite <- app_assoc. Qed.

Lemma props_record c s : props (record c s) = props s.
Proof. reflexivity. Qed.

End RunFacts.

(** ** Voice selection *)

Section VoiceSelection.

Lemma search_voices_cons v rest :
  search_voices (v :: rest) =
  if voice_test v then Some (id v) else search_voices rest.
Proof. reflexivity. Qed.

Lemma female_names_lower fem : In fem female_names -> Py.lower fem = fem.
Proof.
  unfold female_names. simpl.
  intros [<- | [<- | [<- | [<- | []]]]]; reflexivity.
Qed.

Lemma lang_test_iff v :
  existsb (fun lang => Py.contains "en" (Py.lower (py_str lang)))
          (getattr (languages v) []) = true
  <-> language_match v.
Proof.
  unfold language_match. rewrite existsb_exists. split.
  - intros (tag & Hin & H). destruct (languages v) as [tags|] eqn:E.
    + exists tags, tag. repeat split; [exact Hin|].
      now apply (contains_lower_iff "en" tag).
    + simpl in Hin. contradiction.
  - intros (tags & tag & -> & Hin & H). exists tag. split; [exact Hin|].
    now apply (contains_lower_iff "en" tag).
Qed.

Lemma gender_test_iff v :
  String.eqb (Py.lower (getattr (gender v) EmptyString)) "female"
  || existsb (fun fem_name => Py.contains fem_name (Py.lower (name v)))
             female_names = true
  <-> gender_match v.
Proof.
  unfold gender_match. rewrite orb_true_iff, existsb_exists. split.
  - intros [H | (fem & Hin & H)].
    + left. destruct (gender v) as [g|]; simpl in H.
      * exists g. split; [reflexivity|].
        now apply (eqb_lower_iff "female" g).
      * discriminate.
    + right. exists fem. split; [exact Hin|].
      apply contains_lower_iff; [now apply female_names_lower | exact H].
  - intros [(g & -> & H) | (fem & Hin & H)].
    + left. simpl. now apply (eqb_lower_iff "female" g).
    + right. exists fem. split; [exact Hin|].
      apply contains_lower_iff; [now apply female_names_lower | exact H].
Qed.

(** The loop's test is the specification's "English female voice". *)
Lemma voice_test_iff v : voice_test v = true <-> english_female v.
Proof.
  unfold voice_test, english_female.
  rewrite andb_true_iff, lang_test_iff, gender_test_iff. tauto.
Qed.

Lemma voice_test_false v : voice_test v = false <-> ~ english_female v.
Proof.
  rewrite <- voice_test_iff. destruct (voice_test v); split; congruence.
Qed.

(** The loop ends with no voice exactly when no voice passes. *)
Lemma search_voices_none vs :
  search_voices vs = None <-> Forall (fun u => ~ english_female u) vs.
Proof.
  induction vs as [|v vs IH].
  - split; [constructor | reflexivity].
  - rewrite search_voices_cons. destruct (voice_test v) eqn:E.
    + split; [discriminate|]. intros H. inversion H as [|? ? Hv _]; subst.
      apply voice_test_false in Hv. congruence.
    + rewrite IH. split.
      * intros H. constructor; [now apply voice_test_false | exact H].
      * intros H. now inversion H.
Qed.

(** The loop ends with the id of the first voice that passes. *)
Lemma search_voices_first vs v :
  first_english_female vs v -> search_voices vs = Some (id v).
Proof.
  intros (before & after & -> & Hv & Hb).
  induction before as [|u before IH]; simpl app; rewrite search_voices_cons.
  - apply voice_test_iff in Hv. now rewrite Hv.
  - inversion Hb as [|? ? Hu Hb']; subst.
    apply voice_test_false in Hu. rewrite Hu. now apply IH.
Qed.

Lemma search_voices_some vs i :
  search_voices vs = Some i ->
  exists v, first_english_female vs v /\ id v = i.
Proof.
  induction vs as [|u vs IH]; [discriminate|].
  rewrite search_voices_cons. destruct (voice_test u) eqn:E.
  - intros H. injection H as <-. exists u. split; [|reflexivity].
    exists [], vs.
    split; [reflexivity | split; [now apply voice_test_iff | constructor]].
  - intros H. destruct (IH H) as (v & (before & after & -> & Hv & Hb) & Hid).
    exists v. split; [|exact Hid].
    exists (u :: before), after.
    split; [reflexivity | split; [exact Hv|]].
    constructor; [now apply voice_test_false | exact Hb].
Qed.

(** The calls of [initialize_engine]. *)
Lemma calls_initialize_engine w :
  calls w initialize_engine =
  ([Pyttsx3Init; GetVoices EngineHandle]
   ++ match search_voices (voices w) with
      | Some (String c i) =>
          [Print "Found an English female voice.";
           SetProperty EngineHandle "voice" (PStr (String c i))]
      | _ =>
          [Print "Could not find a dedicated English female voice. Using system default."]
      end
   ++ [SetProperty EngineHandle "rate" (PInt 150);
       SetProperty EngineHandle "volume" (PFloat 0.9)])%list.
Proof.
  unfold initialize_engine. simpl.
  destruct (search_voices (voices w)) as [[|c i]|]; reflexivity.
Qed.

Lemma result_initialize_engine w : result w initialize_engine = EngineHandle.
Proof.
  unfold initialize_engine. simpl.
  destruct (search_voices (voices w)) as [[|c i]|]; reflexivity.
Qed.

Lemma props_effects_snoc l e key v s :
  props (effects (l ++ [SetProperty e key v]) s) = <[key := v]> (props (effects l s)).
Proof. rewrite effects_app. reflexivity. Qed.

(** After the calls of [initialize_engine], rate and volume are set. *)
Lemma props_initialize_engine w s :
  props (effects (calls w initialize_engine) s) !! "rate" = Some (PInt 150)
  /\ props (effects (calls w initialize_engine) s) !! "volume" = Some (PFloat 0.9).
Proof.
  rewrite calls_initialize_engine.
  set (l := match search_voices (voices w) with Some (String c i) => _ | _ => _ end).
  change ([SetProperty EngineHandle "rate" (PInt 150);
           SetProperty EngineHandle "volume" (PFloat 0.9)])
    with ([SetProperty EngineHandle "rate" (PInt 150)]
          ++ [SetProperty EngineHandle "volume" (PFloat 0.9)])%list.
  rewrite !app_assoc. rewrite !props_effects_snoc.
  split.
  - rewrite lookup_insert_ne by discriminate. apply lookup_insert_eq.
  - apply lookup_insert_eq.
Qed.

(** The voice property after the calls of [initialize_engine]: the id the
    loop found when it is a non-empty string, untouched otherwise. *)
Lemma voice_initialize_engine w s :
  props (effects (calls w initialize_engine) s) !! "voice" =
  match search_voices (voices w) with
  | Some (String c i) => Some (PStr (String c i))
  | _ => props s !! "voice"
  end.
Proof.
  rewrite calls_initialize_engine.
  destruct (search_voices (voices w)) as [[|c i]|]; unfold effects; simpl;
    rewrite !lookup_insert_ne by discriminate;
    [reflexivity | apply lookup_insert_eq | reflexivity].
Qed.

End VoiceSelection.

(** ** Text extraction, prompt and the body of [main] *)

Section ProgramCalls.

Variable w : World.

Lemma calls_join_pages pages : calls w (join_pages pages) = page_calls pages.
Proof.
  induction pages as [|pg rest IH]; [reflexivity|].
  simpl. destruct (page_text pg) as [[|c t]|]; simpl.
  - now rewrite IH.
  - rewrite calls_bind, IH. simpl. now rewrite app_nil_r.
  - now rewrite IH.
Qed.

Lemma result_join_pages pages : result w (join_pages pages) = page_concat pages.
Proof.
  induction pages as [|pg rest IH]; [reflexivity|].
  unfold page_concat in *. simpl.
  destruct (page_text pg) as [[|c t]|] eqn:E; simpl.
  - exact IH.
  - rewrite result_bind. simpl. now rewrite E, IH.
  - exact IH.
Qed.

(** The calls of [extract_text_from_pdf]. *)
Lemma calls_extract_text_from_pdf path :
  let full_text := page_concat (pdf_pages w path) in
  calls w (extract_text_from_pdf path) =
  ([Print ("Reading PDF: " ++ path);
    PdfReader path;
    Print ("PDF has " ++ Py.str_of_nat (length (pdf_pages w path)) ++ " pages.")]
   ++ page_calls (pdf_pages w path)
   ++ if all_space full_text
      then [Print "No text could be extracted from the PDF."]
      else [Print (Py.nl ++ "Preview of text:");
            Print (Py.strip (Py.take 200 full_text) ++ "...")])%list.
Proof.
  intros full_text. unfold extract_text_from_pdf. simpl.
  do 3 f_equal.
  rewrite calls_bind, calls_join_pages, result_join_pages.
  f_equal. fold full_text. rewrite truthy_strip, negb_involutive.
  destruct (all_space full_text); reflexivity.
Qed.

(** What [extract_text_from_pdf] returns: [None] for a text that is empty or
    white space only, the text otherwise. *)
Lemma result_extract_text_from_pdf path :
  let full_text := page_concat (pdf_pages w path) in
  result w (extract_text_from_pdf path) =
  if all_space full_text then None else Some full_text.
Proof.
  intros full_text. unfold extract_text_from_pdf. simpl.
  rewrite result_bind, result_join_pages.
  fold full_text. rewrite truthy_strip, negb_involutive.
  destruct (all_space full_text); reflexivity.
Qed.

(** The calls of [speak_text]: the prompt, then playback for a line that
    lowers to "y", the cancellation message for any other. *)
Lemma calls_speak_text e text :
  calls w (speak_text e text) =
  prompt :: if String.eqb (Py.lower (stdin_line w)) "y"
            then playback_calls e text
            else [Print "Speech cancelled."].
Proof.
  unfold speak_text. simpl.
  destruct (String.eqb (Py.lower (stdin_line w)) "y"); reflexivity.
Qed.

Lemma calls_save_text_to_audio e text file :
  calls w (save_text_to_audio e text file) = save_calls e text file.
Proof. reflexivity. Qed.

(** The calls of the [try] block of [main]. *)
Lemma calls_main_try argv path :
  let full_text := page_concat (pdf_pages w path) in
  calls w (main_try argv path) =
  (calls w (extract_text_from_pdf path)
   ++ if all_space full_text then []
      else calls w initialize_engine
           ++ if save_mode argv
              then save_calls EngineHandle full_text (output_name path)
              else calls w (speak_text EngineHandle full_text))%list.
Proof.
  intros full_text. unfold main_try.
  rewrite calls_bind, result_extract_text_from_pdf. fold full_text.
  f_equal. destruct (all_space full_text) eqn:E; [reflexivity|].
  assert (Ht : Py.truthy_opt (Some full_text) = true).
  { destruct full_text; [discriminate E | reflexivity]. }
  rewrite Ht. simpl negb. cbv iota.
  rewrite calls_bind, result_initialize_engine. f_equal.
  destruct (save_mode argv); reflexivity.
Qed.

End ProgramCalls.

(** ** The top level *)

Section MainFacts.

Lemma file_argument_no_faults w path :
  file_argument w path -> file_argument (no_faults w) path.
Proof. intros H. exact H. Qed.

Lemma file_argument_one_fault w n e path :
  file_argument w path -> file_argument (one_fault w n e) path.
Proof. intros H. exact H. Qed.

(** On a file argument, [main] checks the path and then enters its [try]. *)
Lemma main_file w path :
  file_argument w path ->
  main w =
  exec_bind (run w (path_exists path)) (fun found =>
    if negb found then
      run w (print ("Error: File '" ++ path ++ "' does not exist!"))
    else
      try_except (run w (main_try (sys_argv w) path)) (main_except w)).
Proof.
  intros ((prog & rest & Hargv) & Hhelp & Hvoices).
  unfold main. rewrite Hargv.
  change (argv_at (prog :: path :: rest) 1) with path.
  rewrite Hhelp, Hvoices. reflexivity.
Qed.

Lemma effects_cons c l s : effects (c :: l) s = effects l (effect c (record c s)).
Proof. reflexivity. Qed.

(** A run on an existing file in which no call raises. *)
Lemma main_quiet w path s :
  file_argument w path ->
  fs_exists w path = true ->
  faults w = ∅ ->
  main w s =
  (Done tt, effects (PathExists path :: calls w (main_try (sys_argv w) path)) s).
Proof.
  intros Hfile Hex Hf. rewrite (main_file _ _ Hfile).
  unfold exec_bind, try_except.
  rewrite (run_no_faults _ _ _ Hf).
  change (result w (path_exists path)) with (fs_exists w path).
  rewrite Hex. change (negb true) with false. cbv beta iota.
  rewrite (run_no_faults _ _ _ Hf).
  destruct (result w (main_try (sys_argv w) path)). reflexivity.
Qed.

(** A run on an existing file in which one call of the [try] block, the
    call number [S k] of the run, raises [KeyboardInterrupt]: the run ends
    normally, and after the call that was interrupted only the message of
    the handler is printed. *)
Lemma main_interrupted w path p0 k c :
  file_argument w path ->
  fs_exists w path = true ->
  faults w = {[ S k := KeyboardInterrupt ]} ->
  calls w (main_try (sys_argv w) path) !! k = Some c ->
  exists s',
    main w (start p0) = (Done tt, s')
    /\ log s' = (PathExists path :: take k (calls w (main_try (sys_argv w) path))
                 ++ [c; interrupted_message])%list.
Proof.
  intros Hfile Hex Hf Hc. rewrite (main_file _ _ Hfile).
  unfold exec_bind, try_except.
  unfold path_exists, perform. simpl run at 1.
  rewrite Hf, lookup_singleton_ne by lia.
  simpl answer. rewrite Hex. change (negb true) with false. cbv beta iota.
  rewrite (run_one_fault w _ _ (S k) KeyboardInterrupt k c Hf); [|reflexivity|exact Hc].
  set (l := calls w (main_try (sys_argv w) path)) in *.
  simpl main_except. cbv iota.
  unfold print, perform. simpl run.
  rewrite Hf. rewrite lookup_singleton_ne.
  - eexists. split; [reflexivity|].
    cbn [log record]. rewrite log_effects.
    cbn [log record start]. rewrite <- !app_assoc. reflexivity.
  - cbn [log record]. rewrite log_effects. cbn [log record start].
    rewrite !length_app, length_take.
    apply lookup_lt_Some in Hc. clearbody l. simpl. lia.
Qed.

(** The calls of a run all satisfy what the calls of the program do. *)
Lemma run_log_Forall {A} (P : call -> Prop) w (p : prog A) s :
  Forall P (log s) -> Forall P (calls w p) ->
  Forall P (log (snd (run w p s))).
Proof.
  intros Hs Hp. destruct (run_log_prefix w p s) as [m ->].
  apply Forall_app. split; [exact Hs | now apply Forall_take].
Qed.

Lemma exec_bind_log_Forall {A B} (P : call -> Prop) (m : exec A) (f : A -> exec B) s :
  Forall P (log (snd (m s))) ->
  (forall a s', Forall P (log s') -> Forall P (log (snd (f a s')))) ->
  Forall P (log (snd (exec_bind m f s))).
Proof.
  intros Hm Hf. unfold exec_bind.
  destruct (m s) as [[a|e] s']; cbn [snd] in Hm |- *; auto.
Qed.

Lemma main_except_log_Forall (P : call -> Prop) w e h s :
  (forall msg, P (Print msg)) ->
  main_except w e = Some h ->
  Forall P (log s) -> Forall P (log (snd (h s))).
Proof.
  intros HP He Hs.
  assert (Hp : forall msg, Forall P (log (snd (run w (print msg) s)))).
  { intros msg. apply run_log_Forall; [exact Hs|]. repeat constructor. apply HP. }
  destruct e; simpl in He; try discriminate; injection He as <-; apply Hp.
Qed.

(** In a run on a file argument, whatever is raised, every call is the
    check of the path, a [print], or a call of the [try] block. *)
Lemma main_log_Forall (P : call -> Prop) w path p0 :
  file_argument w path ->
  P (PathExists path) ->
  (forall msg, P (Print msg)) ->
  Forall P (calls w (main_try (sys_argv w) path)) ->
  Forall P (log (snd (main w (start p0)))).
Proof.
  intros Hfile Hpath Hprint Htry. rewrite (main_file _ _ Hfile).
  apply exec_bind_log_Forall.
  - apply run_log_Forall; simpl; auto.
  - intros found s' Hs'.
    destruct found; [change (negb true) with false | change (negb false) with true];
      cbv beta iota.
    + unfold try_except.
      pose proof (run_log_Forall P w (main_try (sys_argv w) path) s' Hs' Htry) as Hrun.
      destruct (run w (main_try (sys_argv w) path) s') as [[a|e] s''];
        cbn [snd] in Hrun |- *; [exact Hrun|].
      destruct (main_except w e) as [h|] eqn:He; [|exact Hrun].
      now apply (main_except_log_Forall P w e h).
    + apply run_log_Forall; simpl; auto.
Qed.

(** A run on a path that does not exist, whatever is raised: the path is
    checked and, when the check returns, the error is printed. *)
Lemma main_missing_log w path p0 :
  file_argument w path ->
  fs_exists w path = false ->
  log (snd (main w (start p0))) = [PathExists path]
  \/ log (snd (main w (start p0))) = [PathExists path; missing_file_message path].
Proof.
  intros Hfile Hex. rewrite (main_file _ _ Hfile).
  unfold exec_bind, path_exists, print, perform. simpl.
  destruct (faults w !! 0); [left; reflexivity|].
  rewrite Hex. simpl. destruct (faults w !! 1); right; reflexivity.
Qed.

(** A run on a path that does not exist, when no call raises. *)
Lemma main_missing_quiet w path p0 :
  file_argument w path ->
  fs_exists w path = false ->
  faults w = ∅ ->
  main w (start p0) =
  (Done tt, {| log := [PathExists path; missing_file_message path]; props := p0 |}).
Proof.
  intros Hfile Hex Hf. rewrite (main_file _ _ Hfile).
  unfold exec_bind, path_exists, print, perform. simpl.
  rewrite Hf, !lookup_empty, Hex. simpl. rewrite lookup_empty. reflexivity.
Qed.

End MainFacts.

(** ** The name of the audio file *)

Section OutputName.

Implicit Types s t pre post : string.

Lemma str_length_app s t :
  String.length (s ++ t) = String.length s + String.length t.
Proof. induction s as [|c s IH]; simpl; [reflexivity | now rewrite IH]. Qed.

Lemma drop_app_length s t : Py.drop (String.length s) (s ++ t) = t.
Proof. induction s as [|c s IH]; simpl; [now destruct t | exact IH]. Qed.

Lemma take_app_length s t : Py.take (String.length s) (s ++ t) = s.
Proof. induction s as [|c s IH]; simpl; [now destruct t | now rewrite IH]. Qed.

Lemma free_of_app c s t : free_of c (s ++ t) = free_of c s && free_of c t.
Proof.
  induction s as [|a s IH]; simpl; [reflexivity|].
  now rewrite IH, andb_assoc.
Qed.

Lemma all_dots_app s t : all_dots (s ++ t) = all_dots s && all_dots t.
Proof.
  induction s as [|a s IH]; simpl; [reflexivity|].
  now rewrite IH, andb_assoc.
Qed.

(** [rfind] gives [-1] when the character does not occur. *)
Lemma rfind_free c s : free_of c s = true -> Py.rfind c s = (-1)%Z.
Proof.
  induction s as [|a s IH]; simpl; [reflexivity|].
  intros H. apply andb_true_iff in H as [Ha Hs].
  rewrite (IH Hs). simpl. apply negb_true_iff in Ha. now rewrite Ha.
Qed.

(** [rfind] gives the place of the last occurrence. *)
Lemma rfind_last c pre post :
  free_of c post = true ->
  Py.rfind c (pre ++ String c post) = Z.of_nat (String.length pre).
Proof.
  intros Hpost. induction pre as [|a pre IH].
  - simpl. rewrite (rfind_free _ _ Hpost). simpl. now rewrite Ascii.eqb_refl.
  - simpl String.append. cbn [Py.rfind]. rewrite IH.
    destruct (0 <=? Z.of_nat (String.length pre))%Z eqn:E.
    + simpl String.length. lia.
    + apply Z.leb_gt in E. lia.
Qed.

(** A string in which [c] occurs splits at the last occurrence. *)
Lemma free_of_split c s :
  free_of c s = false ->
  exists pre post, s = pre ++ String c post /\ free_of c post = true.
Proof.
  induction s as [|a s IH]; simpl; [discriminate|].
  destruct (free_of c s) eqn:E.
  - rewrite andb_true_r. intros H. apply negb_false_iff in H.
    apply Ascii.eqb_eq in H as ->. exists EmptyString, s. auto.
  - intros _. destruct (IH eq_refl) as (pre & post & -> & Hpost).
    exists (String a pre), post. auto.
Qed.

(** [basename] gives what follows the last slash. *)
Lemma basename_slash dir base :
  free_of "/" base = true ->
  OsPath.basename (dir ++ String "/" base) = base.
Proof.
  intros H. unfold OsPath.basename. rewrite (rfind_last _ _ _ H).
  replace (Z.to_nat (Z.of_nat (String.length dir) + 1))
    with (String.length (dir ++ "/")) by (rewrite str_length_app; simpl; lia).
  replace (dir ++ String "/" base) with ((dir ++ "/") ++ base)
    by (now rewrite str_app_assoc).
  apply drop_app_length.
Qed.

Lemma basename_no_slash p : free_of "/" p = true -> OsPath.basename p = p.
Proof.
  intros H. unfold OsPath.basename. rewrite (rfind_free _ _ H).
  simpl. now destruct p.
Qed.

Lemma basename_spec p : base_of p (OsPath.basename p).
Proof.
  unfold base_of. destruct (free_of "/" p) eqn:E.
  - rewrite (basename_no_slash _ E). split; [exact E|].
    exists EmptyString. auto.
  - destruct (free_of_split _ _ E) as (pre & post & -> & Hpost).
    rewrite (basename_slash _ _ Hpost). split; [exact Hpost|].
    exists (pre ++ "/"). split; [now rewrite str_app_assoc | eauto].
Qed.

Lemma slice_one pre x t :
  OsPath.slice (pre ++ String x t) (Z.of_nat (String.length pre))
               (Z.of_nat (String.length pre) + 1)
  = String x EmptyString.
Proof.
  unfold OsPath.slice.
  replace (Z.to_nat (Z.of_nat (String.length pre) + 1 - Z.of_nat (String.length pre)))
    with 1 by lia.
  rewrite Nat2Z.id, drop_app_length. reflexivity.
Qed.

Lemma eqb_one_char x : String.eqb (String x EmptyString) "." = Ascii.eqb x ".".
Proof. simpl. now destruct (Ascii.eqb x "."). Qed.

(** The loop over the leading characters: it stops at the first one that is
    not a dot and splits at [dotIndex]; when all are dots it gives up. *)
Lemma splitext_scan_spec pre mid post dotIndex :
  let p := pre ++ mid ++ post in
  OsPath.splitext_scan (String.length mid) p
                       (Z.of_nat (String.length pre)) dotIndex
  = if all_dots mid then (p, EmptyString)
    else (Py.take (Z.to_nat dotIndex) p, Py.drop (Z.to_nat dotIndex) p).
Proof.
  revert pre. induction mid as [|x mid IH]; intros pre p; [reflexivity|].
  cbn [String.length OsPath.splitext_scan all_dots].
  unfold p at 1. simpl String.append. rewrite slice_one, eqb_one_char.
  destruct (Ascii.eqb x ".") eqn:E; simpl negb; cbv iota; simpl andb; [|reflexivity].
  specialize (IH (pre ++ String x EmptyString)).
  rewrite str_length_app in IH. simpl String.length in IH.
  replace (Z.of_nat (String.length pre + 1))
    with (Z.of_nat (String.length pre) + 1)%Z in IH by lia.
  replace ((pre ++ String x EmptyString) ++ mid ++ post) with p in IH
    by (unfold p; now rewrite str_app_assoc).
  exact IH.
Qed.

(** On a name without slash, [splitext] splits at the extension. *)
Lemma splitext_spec b :
  free_of "/" b = true ->
  b = fst (OsPath.splitext b) ++ snd (OsPath.splitext b)
  /\ extension_of (fst (OsPath.splitext b)) (snd (OsPath.splitext b)).
Proof.
  intros Hb. unfold OsPath.splitext. rewrite (rfind_free _ _ Hb).
  destruct (free_of "." b) eqn:E.
  - rewrite (rfind_free _ _ E). simpl. rewrite str_app_nil_r.
    split; [reflexivity|]. left. split; [reflexivity|].
    exists EmptyString, b. auto.
  - destruct (free_of_split _ _ E) as (pre & e & -> & He).
    rewrite (rfind_last _ _ _ He).
    replace (-1 <? Z.of_nat (String.length pre))%Z with true
      by (symmetry; apply Z.ltb_lt; lia).
    replace (Z.to_nat (Z.of_nat (String.length pre) - (-1 + 1)))
      with (String.length pre) by lia.
    change (-1 + 1)%Z with 0%Z.
    pose proof (splitext_scan_spec EmptyString pre (String "." e)
                  (Z.of_nat (String.length pre))) as H.
    cbv zeta in H.
    change (Z.of_nat (String.length EmptyString)) with 0%Z in H.
    change (EmptyString ++ pre ++ String "." e) with (pre ++ String "." e) in H.
    rewrite H. clear H.
    rewrite Nat2Z.id, take_app_length, drop_app_length.
    destruct (all_dots pre) eqn:D; simpl.
    + rewrite str_app_nil_r. split; [reflexivity|].
      left. split; [reflexivity|].
      exists (pre ++ "."), e. rewrite str_app_assoc, all_dots_app, D. auto.
    + split; [reflexivity|]. right. exists e. auto.
Qed.

(** The audio file's name: the base name of the input, its extension
    replaced by ".wav". *)
Lemma output_name_spec path :
  exists base root ext,
    base_of path base /\ base = root ++ ext /\ extension_of root ext
    /\ output_name path = root ++ ".wav".
Proof.
  pose proof (basename_spec path) as Hbase.
  destruct (splitext_spec (OsPath.basename path) (proj1 Hbase)) as [Hsplit Hext].
  exists (OsPath.basename path), (fst (OsPath.splitext (OsPath.basename path))),
    (snd (OsPath.splitext (OsPath.basename path))).
  auto.
Qed.

(** The name has no directory part. *)
Lemma output_name_no_slash path : free_of "/" (output_name path) = true.
Proof.
  destruct (output_name_spec path) as (base & root & ext & [Hb _] & -> & _ & ->).
  rewrite free_of_app in Hb |- *. apply andb_true_iff in Hb as [-> _].
  reflexivity.
Qed.

(** The name does not depend on the directory of the input. *)
Lemma output_name_dir dir file :
  free_of "/" file = true ->
  output_name (dir ++ String "/" file) = output_name file.
Proof.
  intros H. unfold output_name.
  now rewrite (basename_slash _ _ H), (basename_no_slash _ H).
Qed.

End OutputName.

(** ** Properties of the program *)

(** *** Voice selection *)

(** X18. Without exceptions, [initialize_engine] returns; the engine's voice is the
    id of the first English female voice when that id is a non-empty string,
    and is left alone when no voice is an English female voice. *)
Lemma initialize_engine_selects w s :
  faults w = ∅ ->
  exists s',
    run w initialize_engine s = (Done EngineHandle, s')
    /\ (forall v, first_english_female (voices w) v -> id v <> EmptyString ->
        props s' !! "voice" = Some (PStr (id v))
        /\ In (SetProperty EngineHandle "voice" (PStr (id v))) (log s'))
    /\ (Forall (fun u => ~ english_female u) (voices w) ->
        props s' !! "voice" = props s !! "voice"
        /\ log s' = (log s ++ calls w initialize_engine)%list
        /\ calls w initialize_engine =
           [Pyttsx3Init; GetVoices EngineHandle;
            Print "Could not find a dedicated English female voice. Using system default.";
            SetProperty EngineHandle "rate" (PInt 150);
            SetProperty EngineHandle "volume" (PFloat 0.9)]).
Proof.
  intros Hf. eexists. split.
  { rewrite (run_no_faults _ _ _ Hf), result_initialize_engine. reflexivity. }
  split.
  - intros v Hv Hid. apply search_voices_first in Hv.
    rewrite voice_initialize_engine, log_effects, calls_initialize_engine, Hv.
    destruct (id v) as [|c i] eqn:E; [congruence|].
    split; [reflexivity|].
    apply in_or_app. right. simpl. auto.
  - intros Hnone. apply search_voices_none in Hnone.
    rewrite voice_initialize_engine, log_effects, calls_initialize_engine, Hnone.
    auto.
Qed.

(** C1, at a voice list the code mishandles.  The first English female voice
    of the list is one whose id is the empty string: the loop stops at it, but
    the test [if english_female_voice] takes the empty id for "nothing
    found", so the engine's voice is not set and the message says that no
    English female voice was found. *)
Theorem empty_id_voice_not_selected :
  let w := Sample.world [] true []
                        [Sample.anna; Sample.unnamed; Sample.zira] EmptyString in
  first_english_female (voices w) Sample.unnamed
  /\ search_voices (voices w) = Some EmptyString
  /\ exists s',
       run w initialize_engine (start ∅) = (Done EngineHandle, s')
       /\ log s' =
          [Pyttsx3Init; GetVoices EngineHandle;
           Print "Could not find a dedicated English female voice. Using system default.";
           SetProperty EngineHandle "rate" (PInt 150);
           SetProperty EngineHandle "volume" (PFloat 0.9)]
       /\ props s' !! "voice" = None.
Proof.
  intros w. split; [|split; [reflexivity|]].
  - exists [Sample.anna], [Sample.zira].
    split; [reflexivity|]. split.
    + apply voice_test_iff. reflexivity.
    + constructor; [apply voice_test_false; reflexivity | constructor].
  - eexists. split; [rewrite run_no_faults by reflexivity; reflexivity|].
    split; reflexivity.
Qed.

(** C5. Without exceptions, [initialize_engine] returns with the engine's
    rate at 150 and its volume at 0.9, whatever the voices are. *)
Theorem rate_and_volume_always_set w s :
  faults w = ∅ ->
  exists s',
    run w initialize_engine s = (Done EngineHandle, s')
    /\ props s' !! "rate" = Some (PInt 150)
    /\ props s' !! "volume" = Some (PFloat 0.9).
Proof.
  intros Hf. eexists. split.
  - rewrite (run_no_faults _ _ _ Hf), result_initialize_engine. reflexivity.
  - apply props_initialize_engine.
Qed.

Lemma rate_and_volume_always_set_witness :
  faults Sample.speak = ∅
  /\ exists s',
       run Sample.speak initialize_engine (start ∅) = (Done EngineHandle, s')
       /\ props s' !! "rate" = Some (PInt 150)
       /\ props s' !! "volume" = Some (PFloat 0.9).
Proof.
  split; [reflexivity|].
  apply (rate_and_volume_always_set Sample.speak (start ∅)). reflexivity.
Defined.

(** *** Text extraction *)

(** C2, as amended. Without exceptions, for a PDF whose page texts,
    concatenated in page order with nothing between them, hold a character
    that is not white space, [extract_text_from_pdf] returns that
    concatenation, which is not empty. *)
Theorem extraction_returns_page_concat w path s :
  faults w = ∅ ->
  all_space (page_concat (pdf_pages w path)) = false ->
  exists s',
    run w (extract_text_from_pdf path) s
    = (Done (Some (page_concat (pdf_pages w path))), s')
    /\ page_concat (pdf_pages w path) <> EmptyString.
Proof.
  intros Hf Htext. eexists. split.
  - rewrite (run_no_faults _ _ _ Hf), result_extract_text_from_pdf, Htext.
    reflexivity.
  - now apply all_space_nonempty.
Qed.

Lemma extraction_returns_page_concat_witness :
  faults Sample.speak = ∅
  /\ all_space (page_concat (pdf_pages Sample.speak "docs/report.pdf")) = false
  /\ exists s',
       run Sample.speak (extract_text_from_pdf "docs/report.pdf") (start ∅)
       = (Done (Some (page_concat (pdf_pages Sample.speak "docs/report.pdf"))), s')
       /\ page_concat (pdf_pages Sample.speak "docs/report.pdf") <> EmptyString.
Proof.
  split; [reflexivity|]. split; [reflexivity|].
  apply (extraction_returns_page_concat Sample.speak "docs/report.pdf" (start ∅));
    reflexivity.
Defined.

(** C2 as stated fails on a PDF whose only page has the text " ": the page has
    text, yet extraction returns [None], not the concatenation. *)
Lemma whitespace_page_gives_no_text :
  (exists pg, In pg (pdf_pages Sample.blank "scan.pdf")
              /\ Py.truthy_opt (page_text pg) = true)
  /\ page_concat (pdf_pages Sample.blank "scan.pdf") = " "
  /\ fst (run Sample.blank (extract_text_from_pdf "scan.pdf") (start ∅)) = Done None.
Proof.
  split; [|split; reflexivity].
  exists {| page_text := Some " " |}. split; [left|]; reflexivity.
Qed.

(** *** The confirmation prompt *)

(** C3, as amended. Without exceptions, [speak_text] returns; a line that is
    "y" or "Y" goes on to playback, every other line cancels, with no call
    on the engine. *)
Theorem confirmation_accepts_y_either_case w e text s :
  faults w = ∅ ->
  exists s',
    run w (speak_text e text) s = (Done tt, s')
    /\ (stdin_line w = "y" \/ stdin_line w = "Y" ->
        log s' = (log s ++ prompt :: playback_calls e text)%list)
    /\ (stdin_line w <> "y" -> stdin_line w <> "Y" ->
        log s' = (log s ++ [prompt; Print "Speech cancelled."])%list).
Proof.
  intros Hf. eexists. split.
  - rewrite (run_no_faults _ _ _ Hf).
    destruct (result w (speak_text e text)). reflexivity.
  - rewrite log_effects, calls_speak_text. split.
    + intros Hy. apply lower_is_y in Hy. rewrite Hy. reflexivity.
    + intros Hy1 Hy2.
      destruct (String.eqb_spec (Py.lower (stdin_line w)) "y") as [Hy|_];
        [|reflexivity].
      apply lower_is_y in Hy. tauto.
Qed.

Lemma confirmation_accepts_y_either_case_witness :
  faults Sample.speak = ∅
  /\ exists s',
       run Sample.speak (speak_text EngineHandle "Hello world") (start ∅) = (Done tt, s')
       /\ (stdin_line Sample.speak = "y" \/ stdin_line Sample.speak = "Y" ->
           log s' = (log (start ∅) ++ prompt :: playback_calls EngineHandle "Hello world")%list)
       /\ (stdin_line Sample.speak <> "y" -> stdin_line Sample.speak <> "Y" ->
           log s' = (log (start ∅) ++ [prompt; Print "Speech cancelled."])%list).
Proof.
  split; [reflexivity|].
  apply (confirmation_accepts_y_either_case Sample.speak EngineHandle "Hello world"
           (start ∅)).
  reflexivity.
Defined.

(** C3 as stated fails on the line "Y": it is not "y", yet the text is
    spoken. *)
Lemma uppercase_y_starts_playback :
  let w := Sample.world [] true [] [] "Y" in
  stdin_line w <> "y"
  /\ log (snd (run w (speak_text EngineHandle "Hello world") (start ∅)))
     = prompt :: playback_calls EngineHandle "Hello world"
  /\ In (Say EngineHandle "Hello world")
        (log (snd (run w (speak_text EngineHandle "Hello world") (start ∅)))).
Proof.
  intros w. split; [discriminate|]. split; [reflexivity|].
  right. right. left. reflexivity.
Qed.

(** *** A PDF without text *)

Lemma page_calls_not_engine pages :
  Forall (fun c => engine_call c = false) (page_calls pages).
Proof.
  induction pages as [|pg rest IH]; [constructor|].
  unfold page_calls in *. simpl.
  destruct (Py.truthy_opt (page_text pg)); simpl; repeat constructor; exact IH.
Qed.

(** The [try] block on a PDF without text: the text is read, the failure is
    printed, and that is all. *)
Lemma calls_main_try_blank w argv path :
  all_space (page_concat (pdf_pages w path)) = true ->
  calls w (main_try argv path) =
  ([Print ("Reading PDF: " ++ path); PdfReader path;
    Print ("PDF has " ++ Py.str_of_nat (length (pdf_pages w path)) ++ " pages.")]
   ++ page_calls (pdf_pages w path)
   ++ [Print "No text could be extracted from the PDF."])%list.
Proof.
  intros Hblank.
  rewrite calls_main_try, calls_extract_text_from_pdf, Hblank.
  now rewrite app_nil_r.
Qed.

(** C4. For a PDF whose page texts, concatenated, are empty or white space
    only: [extract_text_from_pdf] returns [None] and never a string, and the
    run of [main] makes no call on the speech engine, whatever is raised on
    the way; without exceptions it ends normally. *)
Theorem blank_pdf_stops_before_engine w path p0 :
  file_argument w path ->
  all_space (page_concat (pdf_pages w path)) = true ->
  (forall s, faults w = ∅ ->
             fst (run w (extract_text_from_pdf path) s) = Done None)
  /\ (forall s text,
        fst (run w (extract_text_from_pdf path) s) <> Done (Some text))
  /\ Forall (fun c => engine_call c = false) (log (snd (main w (start p0))))
  /\ (faults w = ∅ -> fs_exists w path = true ->
      fst (main w (start p0)) = Done tt).
Proof.
  intros Hfile Hblank. repeat split.
  - intros s Hf.
    rewrite (run_no_faults _ _ _ Hf), result_extract_text_from_pdf, Hblank.
    reflexivity.
  - intros s text H.
    destruct (run w (extract_text_from_pdf path) s) as [r s'] eqn:E.
    simpl in H. subst r. apply run_done in E as [E _].
    rewrite result_extract_text_from_pdf, Hblank in E. discriminate.
  - apply (main_log_Forall _ w path p0 Hfile); [reflexivity | reflexivity |].
    rewrite (calls_main_try_blank _ _ _ Hblank).
    repeat (apply Forall_cons; split; [reflexivity|]).
    apply Forall_app. split; [apply page_calls_not_engine|].
    repeat constructor.
  - intros Hf Hex. now rewrite (main_quiet _ _ _ Hfile Hex Hf).
Qed.

Lemma file_argument_sample argv0 path rest present pages vs line :
  in_tuple path ["-h"; "--help"] = false ->
  String.eqb path "voices" = false ->
  file_argument (Sample.world (argv0 :: path :: rest) present pages vs line) path.
Proof. intros H1 H2. split; [exists argv0, rest; reflexivity | auto]. Qed.

Lemma blank_pdf_stops_before_engine_witness :
  file_argument Sample.blank "scan.pdf"
  /\ all_space (page_concat (pdf_pages Sample.blank "scan.pdf")) = true
  /\ (forall s, faults Sample.blank = ∅ ->
        fst (run Sample.blank (extract_text_from_pdf "scan.pdf") s) = Done None)
  /\ (forall s text,
        fst (run Sample.blank (extract_text_from_pdf "scan.pdf") s) <> Done (Some text))
  /\ Forall (fun c => engine_call c = false) (log (snd (main Sample.blank (start ∅))))
  /\ (faults Sample.blank = ∅ -> fs_exists Sample.blank "scan.pdf" = true ->
      fst (main Sample.blank (start ∅)) = Done tt).
Proof.
  split; [apply file_argument_sample; reflexivity|].
  split; [reflexivity|].
  apply (blank_pdf_stops_before_engine Sample.blank "scan.pdf" ∅).
  - apply file_argument_sample; reflexivity.
  - reflexivity.
Defined.

(** *** A path that does not exist *)

(** C7. On a file argument that does not exist: without exceptions [main]
    checks the path, prints the error, which names the path, and returns;
    and whatever is raised, the run makes no call that reads a PDF and no call
    on the speech engine. *)
Theorem missing_file_reported_only w path p0 :
  file_argument w path ->
  fs_exists w path = false ->
  (faults w = ∅ ->
   main w (start p0) =
   (Done tt, {| log := [PathExists path; missing_file_message path]; props := p0 |}))
  /\ Forall (fun c => extraction_call c = false /\ engine_call c = false)
            (log (snd (main w (start p0))))
  /\ exists pre post, missing_file_message path = Print (pre ++ path ++ post).
Proof.
  intros Hfile Hex. split; [|split].
  - intros Hf. now apply main_missing_quiet.
  - destruct (main_missing_log w path p0 Hfile Hex) as [-> | ->];
      repeat constructor.
  - exists "Error: File '", "' does not exist!". reflexivity.
Qed.

Lemma missing_file_reported_only_witness :
  file_argument Sample.missing "/no/such.pdf"
  /\ fs_exists Sample.missing "/no/such.pdf" = false
  /\ (faults Sample.missing = ∅ ->
      main Sample.missing (start ∅) =
      (Done tt, {| log := [PathExists "/no/such.pdf"; missing_file_message "/no/such.pdf"];
                   props := ∅ |}))
  /\ Forall (fun c => extraction_call c = false /\ engine_call c = false)
            (log (snd (main Sample.missing (start ∅))))
  /\ exists pre post,
       missing_file_message "/no/such.pdf" = Print (pre ++ "/no/such.pdf" ++ post).
Proof.
  split; [apply file_argument_sample; reflexivity|].
  split; [reflexivity|].
  apply (missing_file_reported_only Sample.missing "/no/such.pdf" ∅).
  - apply file_argument_sample; reflexivity.
  - reflexivity.
Defined.

(** *** The name of the audio file *)

(** C6. The name given to [save_text_to_audio] is the base name of the input
    path with its extension replaced by ".wav": it has no directory part, and
    does not depend on the directory of the input. *)
Theorem output_name_is_base_with_wav path :
  (exists base root ext,
     base_of path base /\ base = root ++ ext /\ extension_of root ext
     /\ output_name path = root ++ ".wav")
  /\ free_of "/" (output_name path) = true
  /\ (forall dir file,
        path = dir ++ String "/" file -> free_of "/" file = true ->
        output_name path = output_name file)
  /\ (forall w argv,
        save_mode argv = true ->
        all_space (page_concat (pdf_pages w path)) = false ->
        In (SaveToFile EngineHandle (page_concat (pdf_pages w path)) (output_name path))
           (calls w (main_try argv path)))
  /\ output_name "report.pdf" = "report.wav".
Proof.
  split; [apply output_name_spec|].
  split; [apply output_name_no_slash|].
  split; [intros dir file -> H; now apply output_name_dir|].
  split; [|reflexivity].
  intros w argv Hsave Htext.
  rewrite calls_main_try, Htext, Hsave.
  apply in_or_app. right. apply in_or_app. right.
  right. left. reflexivity.
Qed.

(** *** The mode *)

Lemma save_mode_third prog path arg2 rest :
  save_mode (prog :: path :: arg2 :: rest) = true <-> equals_ci arg2 "save".
Proof.
  unfold save_mode.
  change (argv_at (prog :: path :: arg2 :: rest) 2) with arg2.
  change (2 <? length (prog :: path :: arg2 :: rest))%nat with true.
  rewrite andb_true_l. now apply eqb_lower_iff.
Qed.

(** C9. With a second argument after the program's name, on an existing file
    with text and without exceptions: the mode is "save" exactly when that
    argument is "save" ignoring case; then the audio file is written, and
    with any other argument the run goes to the prompt of live speech. *)
Theorem save_mode_iff_save_ignoring_case w prog path arg2 rest p0 :
  sys_argv w = prog :: path :: arg2 :: rest ->
  in_tuple path ["-h"; "--help"] = false ->
  String.eqb path "voices" = false ->
  fs_exists w path = true ->
  all_space (page_concat (pdf_pages w path)) = false ->
  faults w = ∅ ->
  let text := page_concat (pdf_pages w path) in
  let before := (PathExists path :: calls w (extract_text_from_pdf path)
                 ++ calls w initialize_engine)%list in
  (save_mode (sys_argv w) = true <-> equals_ci arg2 "save")
  /\ exists s',
       main w (start p0) = (Done tt, s')
       /\ (equals_ci arg2 "save" ->
           log s' = (before ++ save_calls EngineHandle text (output_name path))%list)
       /\ (~ equals_ci arg2 "save" ->
           log s' = (before ++ prompt
                       :: if String.eqb (Py.lower (stdin_line w)) "y"
                          then playback_calls EngineHandle text
                          else [Print "Speech cancelled."])%list).
Proof.
  intros Hargv Hhelp Hvoices Hex Htext Hf text before.
  assert (Hfile : file_argument w path).
  { split; [exists prog, (arg2 :: rest); exact Hargv | auto]. }
  assert (Hmode : save_mode (sys_argv w) = true <-> equals_ci arg2 "save").
  { rewrite Hargv. apply save_mode_third. }
  split; [exact Hmode|].
  eexists. split; [apply (main_quiet _ _ _ Hfile Hex Hf)|].
  rewrite log_effects, calls_main_try, Htext, calls_speak_text.
  fold text. unfold before. simpl app.
  split; intros Hsave.
  - apply Hmode in Hsave. rewrite Hsave. now rewrite <- app_assoc.
  - destruct (save_mode (sys_argv w)) eqn:E; [tauto|]. now rewrite <- app_assoc.
Qed.

Lemma save_mode_iff_save_ignoring_case_witness :
  let w := Sample.save in
  let path := "docs/report.pdf" in
  let text := page_concat (pdf_pages w path) in
  let before := (PathExists path :: calls w (extract_text_from_pdf path)
                 ++ calls w initialize_engine)%list in
  sys_argv w = ["pdf_reader.py"; path; "SAVE"]
  /\ in_tuple path ["-h"; "--help"] = false
  /\ String.eqb path "voices" = false
  /\ fs_exists w path = true
  /\ all_space text = false
  /\ faults w = ∅
  /\ (save_mode (sys_argv w) = true <-> equals_ci "SAVE" "save")
  /\ exists s',
       main w (start ∅) = (Done tt, s')
       /\ (equals_ci "SAVE" "save" ->
           log s' = (before ++ save_calls EngineHandle text (output_name path))%list)
       /\ (~ equals_ci "SAVE" "save" ->
           log s' = (before ++ prompt
                       :: if String.eqb (Py.lower (stdin_line w)) "y"
                          then playback_calls EngineHandle text
                          else [Print "Speech cancelled."])%list).
Proof.
  intros w path text before.
  do 6 (split; [reflexivity|]).
  apply (save_mode_iff_save_ignoring_case w "pdf_reader.py" path "SAVE" [] ∅);
    reflexivity.
Defined.

(** *** Interrupts *)

(** The calls of a run on an existing file in which nothing is raised: the
    check of the path, then the calls of the [try] block. *)
Lemma quiet_log w path p0 :
  file_argument w path ->
  fs_exists w path = true ->
  log (snd (main (no_faults w) (start p0)))
  = PathExists path :: calls w (main_try (sys_argv w) path).
Proof.
  intros Hfile Hex.
  rewrite (main_quiet (no_faults w) path (start p0)); [|exact Hfile|exact Hex|reflexivity].
  cbn [snd]. rewrite log_effects. cbn [log start app sys_argv no_faults].
  now rewrite calls_no_faults.
Qed.

(** A [KeyboardInterrupt] raised in the call number [n] of the run, a call of
    the [try] block: [main] returns normally, and after the interrupted call
    only the message of its handler is printed. *)
Lemma interrupt_caught w path p0 n c :
  file_argument w path ->
  fs_exists w path = true ->
  1 <= n ->
  log (snd (main (no_faults w) (start p0))) !! n = Some c ->
  exists s',
    main (one_fault w n KeyboardInterrupt) (start p0) = (Done tt, s')
    /\ log s' = (take n (log (snd (main (no_faults w) (start p0))))
                 ++ [c; interrupted_message])%list.
Proof.
  intros Hfile Hex Hn. rewrite (quiet_log _ _ _ Hfile Hex).
  destruct n as [|k]; [lia|]. intros Hc.
  change ((PathExists path :: calls w (main_try (sys_argv w) path)) !! S k)
    with (calls w (main_try (sys_argv w) path) !! k) in Hc.
  destruct (main_interrupted (one_fault w (S k) KeyboardInterrupt) path p0 k c)
    as (s' & Hmain & Hlog).
  - exact Hfile.
  - exact Hex.
  - reflexivity.
  - cbn [sys_argv one_fault]. now rewrite calls_one_fault.
  - exists s'. split; [exact Hmain|].
    rewrite Hlog. cbn [sys_argv one_fault]. rewrite calls_one_fault. reflexivity.
Qed.

(** The [print] of the missing-file error is made before the [try]: an
    interrupt raised in it leaves [main] as it is. *)
Lemma interrupt_in_missing_file_print w path p0 :
  file_argument w path ->
  fs_exists w path = false ->
  main (one_fault w 1 KeyboardInterrupt) (start p0) =
  (Raise KeyboardInterrupt,
   {| log := [PathExists path; missing_file_message path]; props := p0 |}).
Proof.
  intros Hfile Hex.
  rewrite (main_file _ path (file_argument_one_fault _ 1 KeyboardInterrupt _ Hfile)).
  unfold exec_bind, path_exists, print, perform. simpl.
  rewrite lookup_singleton_ne by lia. rewrite Hex. simpl.
  rewrite lookup_singleton_eq. reflexivity.
Qed.

(** C8. A [KeyboardInterrupt] raised in a call of live playback
    ([engine.say] or [engine.runAndWait]): [main] returns normally, and the
    last thing it does is to print that the operation was interrupted. *)
Theorem interrupt_during_playback_caught w path p0 n c :
  file_argument w path ->
  fs_exists w path = true ->
  let quiet := log (snd (main (no_faults w) (start p0))) in
  quiet !! n = Some c ->
  playback_call c = true ->
  exists s',
    main (one_fault w n KeyboardInterrupt) (start p0) = (Done tt, s')
    /\ log s' = (take n quiet ++ [c; interrupted_message])%list.
Proof.
  intros Hfile Hex quiet Hc Hplay.
  apply (interrupt_caught w path p0 n c Hfile Hex); [|exact Hc].
  destruct n as [|k]; [|lia].
  unfold quiet in Hc. rewrite (quiet_log _ _ _ Hfile Hex) in Hc.
  injection Hc as <-. discriminate.
Qed.

Lemma interrupt_during_playback_caught_witness :
  let quiet := log (snd (main (no_faults Sample.speak) (start ∅))) in
  file_argument Sample.speak "docs/report.pdf"
  /\ fs_exists Sample.speak "docs/report.pdf" = true
  /\ quiet !! 20 = Some (RunAndWait EngineHandle)
  /\ playback_call (RunAndWait EngineHandle) = true
  /\ exists s',
       main (one_fault Sample.speak 20 KeyboardInterrupt) (start ∅) = (Done tt, s')
       /\ log s' = (take 20 quiet ++ [RunAndWait EngineHandle; interrupted_message])%list.
Proof.
  intros quiet.
  split; [apply file_argument_sample; reflexivity|].
  split; [reflexivity|]. split; [reflexivity|]. split; [reflexivity|].
  apply (interrupt_during_playback_caught Sample.speak "docs/report.pdf" ∅ 20
           (RunAndWait EngineHandle)).
  - apply file_argument_sample; reflexivity.
  - reflexivity.
  - reflexivity.
  - reflexivity.
Defined.

(** C10. A [KeyboardInterrupt] raised in any call after the check of the
    path, whichever it is (reading the PDF, setting up the engine, the
    prompt, saving, playback or a [print]): [main] returns normally; the run
    is the undisturbed one up to and with the interrupted call, followed by
    the same message. *)
Theorem interrupt_anywhere_in_try_caught w path p0 n :
  file_argument w path ->
  fs_exists w path = true ->
  let quiet := log (snd (main (no_faults w) (start p0))) in
  1 <= n < length quiet ->
  quiet = PathExists path :: calls w (main_try (sys_argv w) path)
  /\ exists s',
       main (one_fault w n KeyboardInterrupt) (start p0) = (Done tt, s')
       /\ log s' = (take (S n) quiet ++ [interrupted_message])%list.
Proof.
  intros Hfile Hex quiet [Hn Hlen].
  split; [apply (quiet_log _ _ _ Hfile Hex)|].
  destruct (lookup_lt_is_Some_2 quiet n Hlen) as [c Hc].
  destruct (interrupt_caught w path p0 n c Hfile Hex Hn Hc) as (s' & Hmain & Hlog).
  exists s'. split; [exact Hmain|].
  fold quiet in Hlog. rewrite Hlog, (take_S_r _ _ _ Hc).
  now rewrite <- app_assoc.
Qed.

Lemma interrupt_anywhere_in_try_caught_witness :
  let quiet := log (snd (main (no_faults Sample.save) (start ∅))) in
  file_argument Sample.save "docs/report.pdf"
  /\ fs_exists Sample.save "docs/report.pdf" = true
  /\ 1 <= 18 < length quiet
  /\ quiet = PathExists "docs/report.pdf"
             :: calls Sample.save (main_try (sys_argv Sample.save) "docs/report.pdf")
  /\ exists s',
       main (one_fault Sample.save 18 KeyboardInterrupt) (start ∅) = (Done tt, s')
       /\ log s' = (take 19 quiet ++ [interrupted_message])%list.
Proof.
  intros quiet.
  split; [apply file_argument_sample; reflexivity|].
  split; [reflexivity|].
  split; [vm_compute; lia|].
  apply (interrupt_anywhere_in_try_caught Sample.save "docs/report.pdf" ∅ 18).
  - apply file_argument_sample; reflexivity.
  - reflexivity.
  - vm_compute. lia.
Defined.

Example interrupted_save_log :
  log (snd (main (one_fault Sample.save 18 KeyboardInterrupt) (start ∅))) =
  (take 18 (log (snd (main Sample.save (start ∅))))
   ++ [SaveToFile EngineHandle "Hello world" "report.wav"; interrupted_message])%list.
Proof. vm_compute. reflexivity. Qed.

(** ** The command line *)

Lemma run_log_extends {A} w (p : prog A) s :
  exists l, log (snd (run w p s)) = (log s ++ l)%list.
Proof. destruct (run_log_prefix w p s) as [m H]. eauto. Qed.

(** A program that starts with a call logs it first, whatever is raised. *)
Lemma run_first_call {A} w c (k : resp c -> prog A) p0 :
  head (log (snd (run w (Vis c k) (start p0)))) = Some c.
Proof.
  simpl. destruct (faults w !! 0); [reflexivity|].
  destruct (run_log_extends w (k (answer w c)) (effect c (record c (start p0))))
    as [l ->].
  rewrite log_effect. reflexivity.
Qed.

Lemma main_help w :
  help_invocation w -> main w = run w usage.
Proof.
  intros H. unfold main.
  destruct H as [H | [H | H]].
  - apply Nat.ltb_lt in H. now rewrite H.
  - rewrite H. now rewrite orb_true_r.
  - rewrite H. now rewrite orb_true_r.
Qed.

Lemma main_voices w :
  voices_invocation w -> main w = run w list_voices.
Proof. intros (prog & rest & H). unfold main. rewrite H. reflexivity. Qed.

(** Every command line is of one of the three kinds. *)
Lemma invocation_kinds w :
  help_invocation w \/ voices_invocation w
  \/ file_argument w (argv_at (sys_argv w) 1).
Proof.
  unfold help_invocation, voices_invocation, file_argument.
  destruct (sys_argv w) as [|prog [|a1 rest]] eqn:E; [left; left; simpl; lia ..|].
  change (argv_at (prog :: a1 :: rest) 1) with a1.
  destruct (String.eqb_spec a1 "-h") as [->|H1]; [auto|].
  destruct (String.eqb_spec a1 "--help") as [->|H2]; [auto|].
  destruct (String.eqb_spec a1 "voices") as [->|H3]; [right; left; eauto|].
  right. right. split; [eauto|]. split; [|reflexivity].
  unfold in_tuple. cbn [existsb].
  apply String.eqb_neq in H1, H2. now rewrite H1, H2.
Qed.

(** The [try] statement of [main] only adds to the log. *)
Lemma main_try_log_extends w path s :
  exists l,
    log (snd (try_except (run w (main_try (sys_argv w) path)) (main_except w) s))
    = (log s ++ l)%list.
Proof.
  unfold try_except.
  destruct (run_log_extends w (main_try (sys_argv w) path) s) as [l Hl].
  destruct (run w (main_try (sys_argv w) path) s) as [[a|e] s2];
    cbn [snd] in Hl |- *; [eauto|].
  destruct (main_except w e) as [h|] eqn:He; cbn [snd]; [|eauto].
  assert (Hp : forall m, exists l', log (snd (run w (print m) s2)) = (log s ++ l')%list).
  { intros m. destruct (run_log_extends w (print m) s2) as [l' ->].
    rewrite Hl, <- app_assoc. eauto. }
  destruct e; simpl in He; try discriminate; injection He as <-; apply Hp.
Qed.

(** X1. What [main] does first is decided by the first argument alone, read
    with its case: the usage text for no argument, [-h] or [--help]; the
    speech engine for [voices]; the check of the path for anything else.
    The three cases exclude each other and leave no command line out. *)
Theorem main_first_call w p0 :
  let first := head (log (snd (main w (start p0)))) in
  (help_invocation w -> first = Some (Print "PDF to Speech Reader"))
  /\ (voices_invocation w -> first = Some Pyttsx3Init)
  /\ (forall path, file_argument w path -> first = Some (PathExists path))
  /\ (help_invocation w \/ voices_invocation w
      \/ file_argument w (argv_at (sys_argv w) 1)).
Proof.
  intros first. unfold first. repeat split.
  - intros H. rewrite (main_help _ H). apply run_first_call.
  - intros H. rewrite (main_voices _ H). apply run_first_call.
  - intros path H. rewrite (main_file _ _ H).
    unfold exec_bind, path_exists, perform. cbn [run].
    change (length (log (start p0))) with 0.
    destruct (faults w !! 0); [reflexivity|].
    cbn [answer]. destruct (fs_exists w path).
    + change (negb true) with false. cbv beta iota.
      destruct (main_try_log_extends w path
                  (effect (PathExists path) (record (PathExists path) (start p0))))
        as [l ->].
      reflexivity.
    + change (negb false) with true. cbv beta iota.
      unfold print, perform. simpl. destruct (faults w !! 1); reflexivity.
  - apply invocation_kinds.
Qed.

(** X2. With no argument, [-h] or [--help], whatever follows on the command
    line: [main] only prints, whatever is raised; without exceptions it prints
    the six lines of the usage text, leaves the engine's properties alone and
    returns. *)
Theorem usage_only_prints w p0 :
  help_invocation w ->
  Forall (fun c => is_print c = true) (log (snd (main w (start p0))))
  /\ (faults w = ∅ ->
      main w (start p0) = (Done tt, {| log := usage_lines; props := p0 |})).
Proof.
  intros H. rewrite (main_help _ H). split.
  - apply run_log_Forall; [constructor | repeat constructor].
  - intros Hf. rewrite (run_no_faults _ _ _ Hf). reflexivity.
Qed.

Lemma usage_only_prints_witness :
  let w := Sample.world ["pdf_reader.py"; "--help"; "docs/report.pdf"] true
                        Sample.report [Sample.zira] EmptyString in
  help_invocation w
  /\ Forall (fun c => is_print c = true) (log (snd (main w (start ∅))))
  /\ (faults w = ∅ ->
      main w (start ∅) = (Done tt, {| log := usage_lines; props := ∅ |})).
Proof.
  intros w.
  assert (H : help_invocation w) by (right; right; reflexivity).
  split; [exact H|]. apply (usage_only_prints w ∅ H).
Defined.

(** The calls of the loop of [list_voices]: two lines for each voice, numbered
    in the order of the list. *)
Lemma calls_list_voices_loop w i vs :
  calls w (list_voices_loop i vs)
  = concat (imap (fun j => voice_lines (i + j)) vs).
Proof.
  revert i. induction vs as [|v vs IH]; intros i; [reflexivity|].
  cbn [list_voices_loop imap concat]. unfold print, perform. simpl calls.
  rewrite IH, Nat.add_0_r. unfold voice_lines at 2. simpl app.
  do 3 f_equal. apply imap_ext. intros j x _. simpl. f_equal. lia.
Qed.

Lemma calls_list_voices w :
  calls w list_voices = (voices_header ++ concat (imap voice_lines (voices w)))%list.
Proof.
  unfold list_voices, pyttsx3_init, getProperty_voices, print, perform.
  simpl calls. rewrite calls_list_voices_loop. reflexivity.
Qed.

Lemma voice_lines_length (vs : list Voice) (f : nat -> Voice -> list call) :
  (forall j v, length (f j v) = 2) ->
  length (concat (imap f vs)) = 2 * length vs.
Proof.
  revert f. induction vs as [|v vs IH]; intros f Hf; [reflexivity|].
  cbn [imap concat]. rewrite length_app, Hf, IH; [simpl; lia|].
  intros j u. apply Hf.
Qed.

Lemma voice_lines_prints (vs : list Voice) i :
  Forall (fun c => is_print c = true)
         (concat (imap (fun j => voice_lines (i + j)) vs)).
Proof.
  revert i. induction vs as [|v vs IH]; intros i; [constructor|].
  cbn [imap concat]. apply Forall_app. split; [repeat constructor|].
  rewrite (imap_ext _ (fun j => voice_lines (S i + j))); [apply IH|].
  intros j x _. simpl. f_equal. lia.
Qed.

Lemma props_effects_prints l s :
  Forall (fun c => is_print c = true) l -> props (effects l s) = props s.
Proof.
  revert s. induction l as [|c l IH]; intros s H; [reflexivity|].
  inversion H as [|? ? Hc Hl]; subst.
  rewrite effects_cons, (IH _ Hl). now destruct c.
Qed.

(** X3. With [voices] as the first argument and without exceptions, [main]
    opens the engine, asks for its voices, and prints a title, a rule and two
    lines for each voice, numbered from 0 in the platform's order, with "N/A"
    for a gender or for languages that the voice does not have; the engine's
    properties are as before. *)
Theorem voices_command_lists_every_voice w p0 :
  voices_invocation w ->
  faults w = ∅ ->
  main w (start p0) =
  (Done tt,
   {| log := voices_header ++ concat (imap voice_lines (voices w));
      props := p0 |}).
Proof.
  intros Hv Hf. rewrite (main_voices _ Hv), (run_no_faults _ _ _ Hf).
  destruct (result w list_voices).
  rewrite calls_list_voices. f_equal.
  assert (Hlog : log (effects (voices_header ++ concat (imap voice_lines (voices w)))
                              (start p0))
                 = (voices_header ++ concat (imap voice_lines (voices w)))%list)
    by (now rewrite log_effects).
  assert (Hprops : props (effects (voices_header
                                   ++ concat (imap voice_lines (voices w)))
                                  (start p0)) = p0).
  { rewrite effects_app, props_effects_prints; [reflexivity|].
    apply (voice_lines_prints (voices w) 0). }
  destruct (effects _ (start p0)) as [l p]. simpl in *. congruence.
Qed.

Lemma voices_command_lists_every_voice_witness :
  let w := Sample.world ["pdf_reader.py"; "voices"] true Sample.report
                        [Sample.david; Sample.zira] EmptyString in
  voices_invocation w
  /\ faults w = ∅
  /\ main w (start ∅) =
     (Done tt,
      {| log := voices_header
                ++ [Print "  0: Microsoft David Desktop";
                    Print "     - Gender: Male, Languages: ['en-US']";
                    Print "  1: Microsoft Zira Desktop";
                    Print "     - Gender: N/A, Languages: ['EN-us']"];
         props := ∅ |}).
Proof.
  intros w.
  assert (H : voices_invocation w) by (exists "pdf_reader.py", []; reflexivity).
  split; [exact H|]. split; [reflexivity|].
  apply (voices_command_lists_every_voice w ∅ H). reflexivity.
Defined.

(** X4. With [voices] as the first argument, whatever is raised and whether or
    not a file of that name exists: [main] never checks a path, never reads a
    PDF, and calls the engine only to open it and to ask for its voices. *)
Theorem voices_command_reads_only w p0 :
  voices_invocation w ->
  Forall (fun c => c = Pyttsx3Init \/ c = GetVoices EngineHandle \/ is_print c = true)
         (log (snd (main w (start p0)))).
Proof.
  intros Hv. rewrite (main_voices _ Hv).
  apply run_log_Forall; [constructor|].
  rewrite calls_list_voices. apply Forall_app. split.
  - unfold voices_header.
    repeat (apply Forall_cons; split; [auto|]). constructor.
  - eapply Forall_impl; [apply (voice_lines_prints (voices w) 0)|].
    intros c Hc. auto.
Qed.

Lemma voices_command_reads_only_witness :
  let w := one_fault (Sample.world ["pdf_reader.py"; "voices"] true Sample.report
                                   [Sample.david; Sample.zira] EmptyString)
                     5 KeyboardInterrupt in
  voices_invocation w
  /\ Forall (fun c => c = Pyttsx3Init \/ c = GetVoices EngineHandle \/ is_print c = true)
            (log (snd (main w (start ∅)))).
Proof.
  intros w.
  assert (H : voices_invocation w) by (exists "pdf_reader.py", []; reflexivity).
  split; [exact H|]. apply (voices_command_reads_only w ∅ H).
Defined.

(** X5. The [voices] command has no handler: an exception raised in any of its
    calls, [KeyboardInterrupt] too, leaves [main] as it is, after the calls
    made up to there. *)
Theorem voices_command_errors_propagate w p0 n e :
  voices_invocation w ->
  faults w = {[ n := e ]} ->
  n < 4 + 2 * length (voices w) ->
  exists s',
    main w (start p0) = (Raise e, s')
    /\ log s' = take (S n) (voices_header ++ concat (imap voice_lines (voices w))).
Proof.
  intros Hv Hf Hn. rewrite (main_voices _ Hv).
  assert (Hlen : length (calls w list_voices) = 4 + 2 * length (voices w)).
  { rewrite calls_list_voices, length_app.
    rewrite (voice_lines_length (voices w) voice_lines); reflexivity. }
  destruct (lookup_lt_is_Some_2 (calls w list_voices) n) as [c Hc]; [lia|].
  rewrite (run_one_fault w list_voices (start p0) n e n c Hf eq_refl Hc).
  eexists. split; [reflexivity|].
  rewrite <- calls_list_voices, log_record_effects.
  cbn [log start]. rewrite app_nil_l. symmetry. now apply take_S_r.
Qed.

Lemma voices_command_errors_propagate_witness :
  let w := one_fault (Sample.world ["pdf_reader.py"; "voices"] true Sample.report
                                   [Sample.david; Sample.zira] EmptyString)
                     0 (Exception "no driver") in
  voices_invocation w
  /\ faults w = {[ 0 := Exception "no driver" ]}
  /\ 0 < 4 + 2 * length (voices w)
  /\ exists s',
       main w (start ∅) = (Raise (Exception "no driver"), s')
       /\ log s' = take 1 (voices_header ++ concat (imap voice_lines (voices w))).
Proof.
  intros w.
  assert (H : voices_invocation w) by (exists "pdf_reader.py", []; reflexivity).
  split; [exact H|]. split; [reflexivity|]. split; [simpl; lia|].
  apply (voices_command_errors_propagate w ∅ 0 (Exception "no driver") H);
    [reflexivity | simpl; lia].
Defined.

(** ** Exceptions other than an interrupt in the [try] block *)

(** X6. The check of the path and the message for a missing file are outside
    the [try]: an exception raised by [os.path.exists], or by the [print] of
    that message, leaves [main] as it is, with nothing printed after it. *)
Theorem path_check_errors_propagate w path p0 e :
  file_argument w path ->
  (faults w !! 0 = Some e ->
   main w (start p0) = (Raise e, {| log := [PathExists path]; props := p0 |}))
  /\ (fs_exists w path = false -> faults w !! 0 = None -> faults w !! 1 = Some e ->
      main w (start p0) =
      (Raise e, {| log := [PathExists path; missing_file_message path]; props := p0 |})).
Proof.
  intros Hfile. rewrite (main_file _ _ Hfile).
  unfold exec_bind, path_exists, print, perform. simpl. split.
  - intros ->. reflexivity.
  - intros -> -> H1. simpl. rewrite H1. reflexivity.
Qed.

Lemma path_check_errors_propagate_witness :
  let w := one_fault Sample.missing 0 (Exception "Permission denied") in
  file_argument w "/no/such.pdf"
  /\ (faults w !! 0 = Some (Exception "Permission denied") ->
      main w (start ∅) =
      (Raise (Exception "Permission denied"),
       {| log := [PathExists "/no/such.pdf"]; props := ∅ |}))
  /\ (fs_exists w "/no/such.pdf" = false -> faults w !! 0 = None ->
      faults w !! 1 = Some (Exception "Permission denied") ->
      main w (start ∅) =
      (Raise (Exception "Permission denied"),
       {| log := [PathExists "/no/such.pdf"; missing_file_message "/no/such.pdf"];
          props := ∅ |})).
Proof.
  intros w.
  assert (H : file_argument w "/no/such.pdf").
  { split; [exists "pdf_reader.py", []; reflexivity | split; reflexivity]. }
  split; [exact H|].
  apply (path_check_errors_propagate w "/no/such.pdf" ∅
           (Exception "Permission denied") H).
Defined.

(** One exception raised in the call number [S k] of the run, a call of the
    [try] block, and caught by a clause that prints [m]. *)
Lemma main_handled w path p0 k c e m :
  file_argument w path ->
  fs_exists w path = true ->
  faults w = {[ S k := e ]} ->
  calls w (main_try (sys_argv w) path) !! k = Some c ->
  main_except w e = Some (run w (print m)) ->
  exists s',
    main w (start p0) = (Done tt, s')
    /\ log s' = (PathExists path :: take k (calls w (main_try (sys_argv w) path))
                 ++ [c; Print m])%list.
Proof.
  intros Hfile Hex Hf Hc Hh. rewrite (main_file _ _ Hfile).
  unfold exec_bind, try_except.
  unfold path_exists, perform. simpl run at 1.
  rewrite Hf, lookup_singleton_ne by lia.
  simpl answer. rewrite Hex. change (negb true) with false. cbv beta iota.
  rewrite (run_one_fault w _ _ (S k) e k c Hf); [|reflexivity|exact Hc].
  set (l := calls w (main_try (sys_argv w) path)) in *.
  rewrite Hh.
  unfold print, perform. simpl run.
  rewrite Hf. rewrite lookup_singleton_ne.
  - eexists. split; [reflexivity|].
    cbn [log record]. rewrite log_effects.
    cbn [log record start]. rewrite <- !app_assoc. reflexivity.
  - cbn [log record]. rewrite log_effects. cbn [log record start].
    rewrite !length_app, length_take.
    apply lookup_lt_Some in Hc. clearbody l. simpl. lia.
Qed.

(** X7. An exception of class [Exception] raised in any call after the check
    of the path (by pypdf, by the engine, by [input] at the end of the input):
    [main] returns normally; the run is the undisturbed one up to and with the
    failing call, followed by "An unexpected error occurred: " and the text of
    the exception. *)
Theorem unexpected_error_reported w path p0 n msg :
  file_argument w path ->
  fs_exists w path = true ->
  let quiet := log (snd (main (no_faults w) (start p0))) in
  1 <= n < length quiet ->
  exists s',
    main (one_fault w n (Exception msg)) (start p0) = (Done tt, s')
    /\ log s' = (take (S n) quiet ++ [unexpected_error_message msg])%list.
Proof.
  intros Hfile Hex quiet [Hn Hlen]. unfold quiet in *.
  rewrite (quiet_log _ _ _ Hfile Hex) in *.
  destruct n as [|k]; [lia|].
  destruct (lookup_lt_is_Some_2 (calls w (main_try (sys_argv w) path)) k)
    as [c Hc]; [cbn [length] in Hlen; lia|].
  destruct (main_handled (one_fault w (S k) (Exception msg)) path p0 k c
              (Exception msg) ("An unexpected error occurred: " ++ msg))
    as (s' & Hmain & Hlog).
  - exact Hfile.
  - exact Hex.
  - reflexivity.
  - cbn [sys_argv one_fault]. now rewrite calls_one_fault.
  - reflexivity.
  - exists s'. split; [exact Hmain|].
    rewrite Hlog. cbn [sys_argv one_fault]. rewrite calls_one_fault.
    change (take (S (S k)) (PathExists path :: calls w (main_try (sys_argv w) path)))
      with (PathExists path :: take (S k) (calls w (main_try (sys_argv w) path))).
    rewrite (take_S_r _ _ _ Hc). cbn [app]. rewrite <- app_assoc. reflexivity.
Qed.

Lemma unexpected_error_reported_witness :
  let quiet := log (snd (main (no_faults Sample.speak) (start ∅))) in
  file_argument Sample.speak "docs/report.pdf"
  /\ fs_exists Sample.speak "docs/report.pdf" = true
  /\ 1 <= 17 < length quiet
  /\ exists s',
       main (one_fault Sample.speak 17 (Exception "EOF when reading a line")) (start ∅)
       = (Done tt, s')
       /\ log s' = (take 18 quiet
                    ++ [unexpected_error_message "EOF when reading a line"])%list.
Proof.
  intros quiet.
  split; [apply file_argument_sample; reflexivity|].
  split; [reflexivity|].
  split; [vm_compute; lia|].
  apply (unexpected_error_reported Sample.speak "docs/report.pdf" ∅ 17
           "EOF when reading a line").
  - apply file_argument_sample; reflexivity.
  - reflexivity.
  - vm_compute. lia.
Defined.

(** X8. A PDF that pypdf cannot open: when [PdfReader] raises an exception of
    class [Exception], [main] prints the error and returns normally, having
    read no page and made no call on the speech engine. *)
Theorem malformed_pdf_reported w path p0 msg :
  file_argument w path ->
  fs_exists w path = true ->
  faults w = {[ 2 := Exception msg ]} ->
  main w (start p0) =
  (Done tt,
   {| log := [PathExists path; Print ("Reading PDF: " ++ path); PdfReader path;
              unexpected_error_message msg];
      props := p0 |}).
Proof.
  intros Hfile Hex Hf. rewrite (main_file _ _ Hfile).
  unfold exec_bind, try_except, path_exists, perform. cbn [run].
  change (length (log (start p0))) with 0.
  rewrite Hf, lookup_singleton_ne by lia.
  cbn [answer]. rewrite Hex. change (negb true) with false. cbv beta iota.
  unfold main_try. rewrite run_bind.
  unfold extract_text_from_pdf, print, perform. simpl.
  rewrite Hf, lookup_singleton_ne by lia.
  rewrite lookup_singleton_eq. simpl.
  rewrite Hf, lookup_singleton_ne by lia. reflexivity.
Qed.

Lemma malformed_pdf_reported_witness :
  let w := one_fault Sample.speak 2 (Exception "EOF marker not found") in
  file_argument w "docs/report.pdf"
  /\ fs_exists w "docs/report.pdf" = true
  /\ faults w = {[ 2 := Exception "EOF marker not found" ]}
  /\ main w (start ∅) =
     (Done tt,
      {| log := [PathExists "docs/report.pdf"; Print "Reading PDF: docs/report.pdf";
                 PdfReader "docs/report.pdf";
                 unexpected_error_message "EOF marker not found"];
         props := ∅ |}).
Proof.
  intros w.
  assert (H : file_argument w "docs/report.pdf").
  { split; [exists "pdf_reader.py", []; reflexivity | split; reflexivity]. }
  split; [exact H|]. split; [reflexivity|]. split; [reflexivity|].
  apply (malformed_pdf_reported w "docs/report.pdf" ∅ "EOF marker not found" H);
    reflexivity.
Defined.

(** ** More on text extraction *)

Lemma take_length_le n s : String.length (Py.take n s) <= n.
Proof.
  revert s. induction n as [|n IH]; intros s; [reflexivity|].
  destruct s as [|c s]; simpl; [lia|]. specialize (IH s). lia.
Qed.

Lemma take_drop n s : s = Py.take n s ++ Py.drop n s.
Proof.
  revert s. induction n as [|n IH]; intros s; [reflexivity|].
  destruct s as [|c s]; simpl; [reflexivity|]. now rewrite <- IH.
Qed.

Lemma all_space_app s t : all_space (s ++ t) = all_space s && all_space t.
Proof.
  induction s as [|c s IH]; simpl; [reflexivity|].
  now rewrite IH, andb_assoc.
Qed.

Lemma lstrip_decompose s :
  exists pre, s = pre ++ Py.lstrip s /\ all_space pre = true.
Proof.
  induction s as [|c s (pre & IH & Hpre)]; simpl.
  - exists EmptyString. auto.
  - destruct (Py.is_space c) eqn:E.
    + exists (String c pre). simpl. rewrite E, Hpre, <- IH. auto.
    + exists EmptyString. auto.
Qed.

Lemma rstrip_decompose s :
  exists post, s = Py.rstrip s ++ post /\ all_space post = true.
Proof.
  induction s as [|c s (post & IH & Hpost)]; simpl.
  - exists EmptyString. auto.
  - destruct (Py.is_space c && Py.is_empty (Py.rstrip s)) eqn:E.
    + apply andb_true_iff in E as [Hc He]. apply is_empty_true in He.
      rewrite He in IH. simpl in IH. subst s.
      exists (String c post). simpl. rewrite Hc, Hpost. auto.
    + exists post. simpl. now rewrite <- IH.
Qed.

(** [s.strip()] is [s] without a white prefix and a white suffix. *)
Lemma strip_decompose s :
  exists pre post,
    s = pre ++ Py.strip s ++ post /\ all_space pre = true /\ all_space post = true.
Proof.
  destruct (lstrip_decompose s) as (pre & Hs & Hpre).
  destruct (rstrip_decompose (Py.lstrip s)) as (post & Hl & Hpost).
  exists pre, post. unfold Py.strip. rewrite <- Hl. auto.
Qed.

Lemma rstrip_idem s : Py.rstrip (Py.rstrip s) = Py.rstrip s.
Proof.
  induction s as [|c s IH]; [reflexivity|]. simpl.
  destruct (Py.is_space c && Py.is_empty (Py.rstrip s)) eqn:E; [reflexivity|].
  simpl. now rewrite IH, E.
Qed.

Lemma lstrip_rstrip_lstrip s :
  Py.lstrip (Py.rstrip (Py.lstrip s)) = Py.rstrip (Py.lstrip s).
Proof.
  destruct (all_space s) eqn:E.
  - now rewrite (lstrip_all_space _ E).
  - destruct (lstrip_not_all_space _ E) as (c & r & -> & Hc).
    simpl. rewrite Hc. simpl. now rewrite Hc.
Qed.

(** [strip] leaves nothing to strip. *)
Lemma strip_trimmed s : trimmed (Py.strip s).
Proof.
  unfold trimmed, Py.strip. now rewrite lstrip_rstrip_lstrip, rstrip_idem.
Qed.

Lemma str_length_app_le_l s t : String.length s <= String.length (s ++ t).
Proof. induction s as [|c s IH]; simpl; lia. Qed.

(** X9. The preview that [extract_text_from_pdf] prints for a PDF with text:
    three dots after a piece of the text that has at most 200 characters and
    no white space at either end; it starts after the white space the text
    begins with, and ends within the first 200 characters of the text. *)
Theorem preview_is_trimmed_head w path :
  let full_text := page_concat (pdf_pages w path) in
  all_space full_text = false ->
  exists preview,
    In (Print (preview ++ "...")) (calls w (extract_text_from_pdf path))
    /\ String.length preview <= 200
    /\ trimmed preview
    /\ exists pre post,
         full_text = pre ++ preview ++ post
         /\ all_space pre = true
         /\ String.length (pre ++ preview) <= 200.
Proof.
  intros full_text Htext. exists (Py.strip (Py.take 200 full_text)).
  destruct (strip_decompose (Py.take 200 full_text)) as (pre & post & Hd & Hpre & _).
  pose proof (take_length_le 200 full_text) as Hlen.
  assert (Hpp : String.length (pre ++ Py.strip (Py.take 200 full_text)) <= 200).
  { rewrite Hd in Hlen at 1. rewrite <- str_app_assoc in Hlen.
    pose proof (str_length_app_le_l (pre ++ Py.strip (Py.take 200 full_text)) post).
    lia. }
  split; [|split; [|split; [apply strip_trimmed|]]].
  - rewrite calls_extract_text_from_pdf. fold full_text. rewrite Htext.
    apply in_or_app. right. apply in_or_app. right. right. left. reflexivity.
  - rewrite str_length_app in Hpp. lia.
  - exists pre, (post ++ Py.drop 200 full_text).
    split; [|split; [exact Hpre | exact Hpp]].
    rewrite (take_drop 200 full_text) at 1. rewrite Hd at 1.
    now rewrite !str_app_assoc.
Qed.

Lemma preview_is_trimmed_head_witness :
  let w := Sample.world [] true [ {| page_text := Some "  Hello world  " |} ]
                        [] EmptyString in
  let full_text := page_concat (pdf_pages w "a.pdf") in
  all_space full_text = false
  /\ exists preview,
       In (Print (preview ++ "...")) (calls w (extract_text_from_pdf "a.pdf"))
       /\ String.length preview <= 200
       /\ trimmed preview
       /\ exists pre post,
            full_text = pre ++ preview ++ post
            /\ all_space pre = true
            /\ String.length (pre ++ preview) <= 200.
Proof.
  intros w full_text. split; [reflexivity|].
  apply (preview_is_trimmed_head w "a.pdf"). reflexivity.
Defined.

Lemma filter_page_calls pages :
  length (List.filter is_extract_text (page_calls pages))
  = length pages + length (text_pages pages).
Proof.
  induction pages as [|pg rest IH]; [reflexivity|].
  unfold page_calls, text_pages in *. simpl.
  rewrite List.filter_app, length_app, IH.
  destruct (Py.truthy_opt (page_text pg)); simpl; lia.
Qed.

(** X10. [extract_text_from_pdf] asks every page for its text once, and a
    second time each page that has text: the number of [extract_text()] calls
    is the number of pages plus the number of pages with text. *)
Theorem extraction_asks_text_pages_twice w path :
  length (List.filter is_extract_text (calls w (extract_text_from_pdf path)))
  = length (pdf_pages w path) + length (text_pages (pdf_pages w path)).
Proof.
  rewrite calls_extract_text_from_pdf.
  rewrite !List.filter_app, !length_app, filter_page_calls.
  destruct (all_space (page_concat (pdf_pages w path))); simpl; lia.
Qed.

(** Pages without text can be left out of the concatenation. *)
Lemma page_concat_text_pages pages :
  page_concat (text_pages pages) = page_concat pages.
Proof.
  induction pages as [|pg rest IH]; [reflexivity|].
  unfold page_concat, text_pages in *.
  destruct pg as [[[|c t]|]]; simpl; now rewrite IH.
Qed.

Lemma page_concat_app p q :
  page_concat (p ++ q) = page_concat p ++ page_concat q.
Proof.
  unfold page_concat. induction p as [|pg p IH]; [reflexivity|].
  simpl. now rewrite IH, str_app_assoc.
Qed.

(** X11. What [extract_text_from_pdf] returns depends on the pages that have
    text only: two PDFs with the same such pages in the same order give the
    same result, wherever pages with no text or with the empty text lie
    between them. *)
Theorem extraction_ignores_empty_pages w w' path path' s s' :
  faults w = ∅ ->
  faults w' = ∅ ->
  text_pages (pdf_pages w path) = text_pages (pdf_pages w' path') ->
  fst (run w (extract_text_from_pdf path) s)
  = fst (run w' (extract_text_from_pdf path') s').
Proof.
  intros Hf Hf' Hp.
  rewrite (run_no_faults _ _ _ Hf), (run_no_faults _ _ _ Hf').
  cbn [fst]. rewrite !result_extract_text_from_pdf.
  rewrite <- (page_concat_text_pages (pdf_pages w path)).
  rewrite <- (page_concat_text_pages (pdf_pages w' path')).
  now rewrite Hp.
Qed.

Lemma extraction_ignores_empty_pages_witness :
  let w' := Sample.world [] true
              [ {| page_text := Some EmptyString |}; {| page_text := Some "Hello " |};
                {| page_text := Some "world" |}; {| page_text := None |} ]
              [] EmptyString in
  faults Sample.speak = ∅
  /\ faults w' = ∅
  /\ text_pages (pdf_pages Sample.speak "docs/report.pdf")
     = text_pages (pdf_pages w' "other.pdf")
  /\ fst (run Sample.speak (extract_text_from_pdf "docs/report.pdf") (start ∅))
     = fst (run w' (extract_text_from_pdf "other.pdf") (start ∅)).
Proof.
  intros w'. split; [reflexivity|]. split; [reflexivity|]. split; [reflexivity|].
  apply (extraction_ignores_empty_pages Sample.speak w' "docs/report.pdf" "other.pdf");
    reflexivity.
Defined.

(** ** What a run on a file never does *)

Lemma page_calls_Forall (P : call -> Prop) pages :
  (forall pg, P (ExtractText pg)) -> Forall P (page_calls pages).
Proof.
  intros H. induction pages as [|pg rest IH]; [constructor|].
  unfold page_calls in *. simpl.
  destruct (Py.truthy_opt (page_text pg)); simpl; repeat constructor; auto.
Qed.

(** The calls of the [try] block are prints, calls that read the PDF, the
    set-up of the engine, and the calls of the one mode. *)
Lemma calls_main_try_Forall (P : call -> Prop) w argv path :
  (forall m, P (Print m)) ->
  P (PdfReader path) ->
  (forall pg, P (ExtractText pg)) ->
  P Pyttsx3Init ->
  P (GetVoices EngineHandle) ->
  (forall key v, P (SetProperty EngineHandle key v)) ->
  (forall text,
     Forall P (if save_mode argv
               then save_calls EngineHandle text (output_name path)
               else calls w (speak_text EngineHandle text))) ->
  Forall P (calls w (main_try argv path)).
Proof.
  intros HPrint HReader HText HInit HVoices HSet HMode.
  rewrite calls_main_try, calls_extract_text_from_pdf.
  repeat (apply Forall_app; split).
  - repeat constructor; auto.
  - now apply page_calls_Forall.
  - destruct (all_space _); repeat constructor; auto.
  - destruct (all_space _); [constructor|].
    apply Forall_app. split; [|apply HMode].
    rewrite calls_initialize_engine.
    destruct (search_voices (voices w)) as [[|c i]|]; repeat constructor; auto.
Qed.

(** X12. The two modes exclude each other, whatever is raised: a run in save
    mode never asks at the prompt and never speaks, and a run that is not in
    save mode never writes an audio file. *)
Theorem modes_exclude_each_other w path p0 :
  file_argument w path ->
  (save_mode (sys_argv w) = true ->
   Forall (fun c => asks_or_speaks c = false) (log (snd (main w (start p0)))))
  /\ (save_mode (sys_argv w) = false ->
      Forall (fun c => writes_file c = false) (log (snd (main w (start p0))))).
Proof.
  intros Hfile. split; intros Hmode;
    apply (main_log_Forall _ w path p0 Hfile); try reflexivity;
    apply calls_main_try_Forall; try reflexivity;
    intros text; rewrite Hmode.
  - repeat constructor.
  - rewrite calls_speak_text.
    destruct (String.eqb (Py.lower (stdin_line w)) "y"); repeat constructor.
Qed.

Lemma modes_exclude_each_other_witness :
  let w := one_fault Sample.save 19 (Exception "disk full") in
  file_argument w "docs/report.pdf"
  /\ (save_mode (sys_argv w) = true ->
      Forall (fun c => asks_or_speaks c = false) (log (snd (main w (start ∅)))))
  /\ (save_mode (sys_argv w) = false ->
      Forall (fun c => writes_file c = false) (log (snd (main w (start ∅))))).
Proof.
  intros w.
  assert (H : file_argument w "docs/report.pdf").
  { split; [exists "pdf_reader.py", ["SAVE"]; reflexivity | split; reflexivity]. }
  split; [exact H|]. apply (modes_exclude_each_other w "docs/report.pdf" ∅ H).
Defined.

(** X13. The only path whose existence a run checks is the input: the audio
    file is written without a look at what is at its name, so a file that is
    there is replaced without a question. *)
Theorem only_input_path_checked w path p0 :
  file_argument w path ->
  Forall (fun c => forall p, c = PathExists p -> p = path)
         (log (snd (main w (start p0)))).
Proof.
  intros Hfile. apply (main_log_Forall _ w path p0 Hfile).
  - intros p H. now injection H.
  - intros m p H. discriminate.
  - apply calls_main_try_Forall; try (intros; discriminate).
    intros text. destruct (save_mode (sys_argv w)).
    + repeat constructor; intros; discriminate.
    + rewrite calls_speak_text.
      destruct (String.eqb (Py.lower (stdin_line w)) "y");
        repeat constructor; intros; discriminate.
Qed.

Lemma only_input_path_checked_witness :
  file_argument Sample.save "docs/report.pdf"
  /\ Forall (fun c => forall p, c = PathExists p -> p = "docs/report.pdf")
            (log (snd (main Sample.save (start ∅)))).
Proof.
  assert (H : file_argument Sample.save "docs/report.pdf")
    by (apply file_argument_sample; reflexivity).
  split; [exact H|]. apply (only_input_path_checked Sample.save _ ∅ H).
Defined.

(** ** More on voice selection *)

(** X14. The search goes through the voices in order and stops at the first
    that passes: on two lists one after the other, it gives what it finds in
    the first, and what it finds in the second only when the first has
    nothing. *)
Theorem search_voices_app (vs1 vs2 : list Voice) :
  search_voices (vs1 ++ vs2)
  = match search_voices vs1 with
    | Some i => Some i
    | None => search_voices vs2
    end.
Proof.
  induction vs1 as [|v vs1 IH]; [reflexivity|].
  simpl app. rewrite !search_voices_cons.
  destruct (voice_test v); [reflexivity | exact IH].
Qed.

Lemma voice_test_no_languages v :
  languages v = None \/ languages v = Some [] -> voice_test v = false.
Proof. intros [H | H]; unfold voice_test; rewrite H; reflexivity. Qed.

Lemma search_voices_no_languages vs :
  Forall (fun v => languages v = None \/ languages v = Some []) vs ->
  search_voices vs = None.
Proof.
  induction 1 as [|v vs H1 _ IH]; [reflexivity|].
  now rewrite search_voices_cons, (voice_test_no_languages _ H1).
Qed.

(** X15. Voices that report no languages (the attribute is missing, or is an
    empty list) are never taken, whatever their name and gender: when no voice
    reports a language, [initialize_engine] says that it found none and leaves
    the engine's voice as it was. *)
Theorem voices_without_languages_never_selected w s :
  faults w = ∅ ->
  Forall (fun v => languages v = None \/ languages v = Some []) (voices w) ->
  exists s',
    run w initialize_engine s = (Done EngineHandle, s')
    /\ props s' !! "voice" = props s !! "voice"
    /\ Forall (fun c => sets_voice c = false) (calls w initialize_engine)
    /\ In (Print "Could not find a dedicated English female voice. Using system default.")
          (log s').
Proof.
  intros Hf Hv.
  pose proof (search_voices_no_languages _ Hv) as Hnone.
  eexists. split.
  { rewrite (run_no_faults _ _ _ Hf), result_initialize_engine. reflexivity. }
  rewrite voice_initialize_engine, log_effects, calls_initialize_engine, Hnone.
  split; [reflexivity|]. split; [repeat constructor|].
  apply in_or_app. right. simpl. auto.
Qed.

Lemma voices_without_languages_never_selected_witness :
  let w := Sample.world [] true []
             [ {| id := "tts.zira"; name := "Microsoft Zira Desktop";
                  languages := None; gender := Some "female" |};
               {| id := "tts.hazel"; name := "Hazel";
                  languages := Some []; gender := Some "Female" |} ]
             EmptyString in
  faults w = ∅
  /\ Forall (fun v => languages v = None \/ languages v = Some []) (voices w)
  /\ exists s',
       run w initialize_engine (start ∅) = (Done EngineHandle, s')
       /\ props s' !! "voice" = props (start ∅) !! "voice"
       /\ Forall (fun c => sets_voice c = false) (calls w initialize_engine)
       /\ In (Print "Could not find a dedicated English female voice. Using system default.")
             (log s').
Proof.
  intros w. split; [reflexivity|].
  assert (H : Forall (fun v => languages v = None \/ languages v = Some []) (voices w)).
  { constructor; [left; reflexivity|].
    constructor; [right; reflexivity | constructor]. }
  split; [exact H|].
  apply (voices_without_languages_never_selected w (start ∅)); [reflexivity | exact H].
Defined.

Lemma initialize_engine_selects_witness :
  faults Sample.speak = ∅
  /\ exists s',
       run Sample.speak initialize_engine (start ∅) = (Done EngineHandle, s')
       /\ (forall v, first_english_female (voices Sample.speak) v ->
             id v <> EmptyString ->
             props s' !! "voice" = Some (PStr (id v))
             /\ In (SetProperty EngineHandle "voice" (PStr (id v))) (log s'))
       /\ (Forall (fun u => ~ english_female u) (voices Sample.speak) ->
           props s' !! "voice" = props (start ∅) !! "voice"
           /\ log s' = (log (start ∅) ++ calls Sample.speak initialize_engine)%list
           /\ calls Sample.speak initialize_engine =
              [Pyttsx3Init; GetVoices EngineHandle;
               Print "Could not find a dedicated English female voice. Using system default.";
               SetProperty EngineHandle "rate" (PInt 150);
               SetProperty EngineHandle "volume" (PFloat 0.9)]).
Proof.
  split; [reflexivity|].
  apply (initialize_engine_selects Sample.speak (start ∅)). reflexivity.
Defined.

(** ** More on the name of the audio file *)

(** [splitext] on a name without slash, cut at its last dot. *)
Lemma splitext_last_dot pre e :
  free_of "/" (pre ++ String "." e) = true ->
  free_of "." e = true ->
  OsPath.splitext (pre ++ String "." e)
  = if all_dots pre then (pre ++ String "." e, EmptyString)
    else (pre, String "." e).
Proof.
  intros Hb He. unfold OsPath.splitext.
  rewrite (rfind_free _ _ Hb), (rfind_last _ _ _ He).
  replace (-1 <? Z.of_nat (String.length pre))%Z with true
    by (symmetry; apply Z.ltb_lt; lia).
  replace (Z.to_nat (Z.of_nat (String.length pre) - (-1 + 1)))
    with (String.length pre) by lia.
  change (-1 + 1)%Z with 0%Z.
  pose proof (splitext_scan_spec EmptyString pre (String "." e)
                (Z.of_nat (String.length pre))) as H.
  cbv zeta in H.
  change (Z.of_nat (String.length EmptyString)) with 0%Z in H.
  change (EmptyString ++ pre ++ String "." e) with (pre ++ String "." e) in H.
  rewrite H, Nat2Z.id, take_app_length, drop_app_length. reflexivity.
Qed.

Lemma all_dots_snoc d :
  all_dots d = true -> d <> EmptyString ->
  exists pre, d = pre ++ "." /\ all_dots pre = true.
Proof.
  induction d as [|c d IH]; [congruence|].
  simpl. intros H _. apply andb_true_iff in H as [Hc Hd].
  apply Ascii.eqb_eq in Hc. subst c.
  destruct d as [|c' d'].
  - exists EmptyString. auto.
  - destruct (IH Hd) as (pre & Hpre & Hall); [discriminate|].
    exists (String "." pre). simpl. rewrite <- Hpre, Hall. auto.
Qed.

Lemma all_dots_no_slash d : all_dots d = true -> free_of "/" d = true.
Proof.
  induction d as [|c d IH]; [reflexivity|].
  simpl. intros H. apply andb_true_iff in H as [Hc Hd].
  apply Ascii.eqb_eq in Hc. subst c. now rewrite (IH Hd).
Qed.

(** X16. A name with no extension keeps all of itself: for a file name made of
    dots (none, for an ordinary name; the leading dot of a hidden file) and
    then a part without a dot, the audio file is that name with ".wav" added,
    in whatever directory the input lies. *)
Theorem output_name_appends_when_no_extension dir dots rest :
  all_dots dots = true ->
  free_of "." rest = true ->
  free_of "/" rest = true ->
  output_name (dots ++ rest) = (dots ++ rest) ++ ".wav"
  /\ output_name (dir ++ String "/" (dots ++ rest)) = (dots ++ rest) ++ ".wav".
Proof.
  intros Hdots Hrest Hslash.
  assert (Hbase : free_of "/" (dots ++ rest) = true).
  { now rewrite free_of_app, (all_dots_no_slash _ Hdots), Hslash. }
  assert (Hname : output_name (dots ++ rest) = (dots ++ rest) ++ ".wav").
  { unfold output_name. rewrite (basename_no_slash _ Hbase).
    destruct dots as [|c d] eqn:E.
    - simpl String.append. unfold OsPath.splitext.
      rewrite (rfind_free _ _ Hrest), (rfind_free _ _ Hslash). reflexivity.
    - destruct (all_dots_snoc _ Hdots) as (pre & Hpre & Hall); [discriminate|].
      rewrite Hpre, str_app_assoc in Hbase |- *. simpl String.append in Hbase |- *.
      now rewrite (splitext_last_dot _ _ Hbase Hrest), Hall. }
  split; [exact Hname|].
  now rewrite (output_name_dir _ _ Hbase).
Qed.

Lemma output_name_appends_when_no_extension_witness :
  all_dots "." = true
  /\ free_of "." "notes" = true
  /\ free_of "/" "notes" = true
  /\ output_name ("." ++ "notes") = ("." ++ "notes") ++ ".wav"
  /\ output_name ("/home/u" ++ String "/" ("." ++ "notes")) = ("." ++ "notes") ++ ".wav".
Proof.
  do 3 (split; [reflexivity|]).
  apply (output_name_appends_when_no_extension "/home/u" "." "notes"); reflexivity.
Defined.

(** X17. A name with an extension loses its last extension only: for a file
    name [stem.e], where [stem] is not made of dots alone and [e] has no dot,
    the audio file is [stem.wav], in whatever directory the input lies; so
    inputs of the same stem, whatever their directory and extension, give the
    same audio file. *)
Theorem output_name_replaces_last_extension dir stem e :
  all_dots stem = false ->
  free_of "/" stem = true ->
  free_of "/" e = true ->
  free_of "." e = true ->
  output_name (stem ++ String "." e) = stem ++ ".wav"
  /\ output_name (dir ++ String "/" (stem ++ String "." e)) = stem ++ ".wav".
Proof.
  intros Hstem Hs He Hdot.
  assert (Hbase : free_of "/" (stem ++ String "." e) = true).
  { rewrite free_of_app, Hs. simpl. exact He. }
  assert (Hname : output_name (stem ++ String "." e) = stem ++ ".wav").
  { unfold output_name.
    now rewrite (basename_no_slash _ Hbase), (splitext_last_dot _ _ Hbase Hdot), Hstem. }
  split; [exact Hname|].
  now rewrite (output_name_dir _ _ Hbase).
Qed.

Lemma output_name_replaces_last_extension_witness :
  all_dots "a.tar" = false
  /\ free_of "/" "a.tar" = true
  /\ free_of "/" "gz" = true
  /\ free_of "." "gz" = true
  /\ output_name ("a.tar" ++ String "." "gz") = "a.tar" ++ ".wav"
  /\ output_name ("docs" ++ String "/" ("a.tar" ++ String "." "gz")) = "a.tar" ++ ".wav".
Proof.
  do 4 (split; [reflexivity|]).
  apply (output_name_replaces_last_extension "docs" "a.tar" "gz"); reflexivity.
Defined.
